(** * NLP-Plug-in: custom stopwords, text processor and pipeline

    A shallow embedding of [custom_stopwords.py], [text_processor.py],
    [document_processors.py] and [nlp_pipeline.py].

    Characters.  Python strings are sequences of Unicode code points.  The
    model covers the code points below 256 (Latin-1): an [ascii] value is
    read as the code point with the same number, and [str.lower], the regex
    class [\w] and [str.isspace] are written out on that range exactly as
    Python 3 defines them there. *)

From Stdlib Require Import Ascii String List Bool Arith ZArith Lia.
From Stdlib Require Import Sorting.Permutation Sorting.Sorted.
From Stdlib Require Import Floats.
Import ListNotations.
Set Warnings "-register-all".

(* ------------------------------------------------------------------ *)
(** ** Characters *)

Definition code (c : ascii) : nat := nat_of_ascii c.

(** [ch.lower()] on Latin-1: A-Z and U+00C0..U+00DE except U+00D7 move
    down by 32; every other code point is its own lowercase. *)
Definition lower_char (c : ascii) : ascii :=
  let n := code c in
  if ((65 <=? n) && (n <=? 90))
     || ((192 <=? n) && (n <=? 222) && negb (n =? 215))
  then ascii_of_nat (n + 32) else c.

(** The regex class [\w] of Python's [re] on [str] patterns, on Latin-1:
    [_] and the code points that are alphanumeric in the Unicode
    database. *)
Definition is_word (c : ascii) : bool :=
  let n := code c in
  ((48 <=? n) && (n <=? 57)) || ((65 <=? n) && (n <=? 90)) || (n =? 95)
  || ((97 <=? n) && (n <=? 122))
  || (n =? 170) || (n =? 178) || (n =? 179) || (n =? 181) || (n =? 185)
  || (n =? 186) || ((188 <=? n) && (n <=? 190))
  || ((192 <=? n) && (n <=? 214)) || ((216 <=? n) && (n <=? 246))
  || ((248 <=? n) && (n <=? 255)).

(** [ch.isspace()] on Latin-1. *)
Definition is_space (c : ascii) : bool :=
  let n := code c in
  ((9 <=? n) && (n <=? 13)) || ((28 <=? n) && (n <=? 32))
  || (n =? 133) || (n =? 160).

Open Scope string_scope.

(** [s.lower()] *)
Fixpoint lower (s : string) : string :=
  match s with
  | EmptyString => EmptyString
  | String c s' => String (lower_char c) (lower s')
  end.

(** A pending run of characters, emitted when it is not empty. *)
Definition flush (cur : string) : list string :=
  match cur with EmptyString => [] | _ => [cur] end.

(** [s.split()] with no separator: maximal runs of non-whitespace. *)
Fixpoint split_ws_aux (s : string) (cur : string) : list string :=
  match s with
  | EmptyString => flush cur
  | String c s' =>
      if is_space c then flush cur ++ split_ws_aux s' EmptyString
      else split_ws_aux s' (cur ++ String c EmptyString)
  end.

Definition py_split (s : string) : list string := split_ws_aux s EmptyString.

(** Every character is whitespace (true on the empty string). *)
Fixpoint all_space (s : string) : bool :=
  match s with
  | EmptyString => true
  | String c s' => is_space c && all_space s'
  end.

(* ------------------------------------------------------------------ *)
(** ** Tokenizer: [re.findall(r'\b\w+\b', s)]

    Scanning left to right, [cur] holds the run of word characters read
    so far; a non-word character or the end of the text closes it.  At a
    position inside a run the leading [\b] fails, and the greedy [\w+]
    started at a run's first character reaches its last one, where the
    trailing [\b] holds; so the matches are exactly the maximal runs. *)

Fixpoint findall_words (s : string) (cur : string) : list string :=
  match s with
  | EmptyString => flush cur
  | String c s' =>
      if is_word c then findall_words s' (cur ++ String c EmptyString)
      else flush cur ++ findall_words s' EmptyString
  end.

Definition findall (s : string) : list string := findall_words s EmptyString.

(* ------------------------------------------------------------------ *)
(** ** Python sets of strings, as lists compared by membership *)

Definition mem (x : string) (l : list string) : bool :=
  existsb (String.eqb x) l.

(** [s.add(x)] *)
Definition set_add (x : string) (l : list string) : list string :=
  if mem x l then l else l ++ [x].

(** [set(xs)] *)
Definition py_set (xs : list string) : list string :=
  fold_left (fun acc x => set_add x acc) xs [].

(** [s.discard(x)] *)
Definition set_discard (x : string) (l : list string) : list string :=
  filter (fun y => negb (String.eqb x y)) l.

(** [a.union(b)] *)
Definition set_union (a b : list string) : list string :=
  fold_left (fun acc x => set_add x acc) b a.

(** [sorted(xs)] on strings: code-point order, stable insertion sort. *)
Fixpoint insert_sorted (x : string) (l : list string) : list string :=
  match l with
  | [] => [x]
  | y :: l' => if String.leb x y then x :: l else y :: insert_sorted x l'
  end.

Definition py_sorted (xs : list string) : list string :=
  fold_right insert_sorted [] xs.

(** The order [sorted] uses, and its strict version. *)
Definition str_le (a b : string) : Prop := String.leb a b = true.
Definition str_lt (a b : string) : Prop := String.ltb a b = true.

(* ------------------------------------------------------------------ *)
(** ** [CustomStopwords] objects *)

Record custom_stopwords := mkCustomStopwords {
  language : string;
  storage_path : string;
  custom_stopwords_set : list string;   (** [self.custom_stopwords] *)
  base_stopwords : list string          (** [self.base_stopwords] *)
}.

(** [get_all]: [self.base_stopwords.union(self.custom_stopwords)] *)
Definition get_all (st : custom_stopwords) : list string :=
  set_union (base_stopwords st) (custom_stopwords_set st).

(** [is_stopword]: [word.lower() in self.get_all()] *)
Definition is_stopword (st : custom_stopwords) (word : string) : bool :=
  mem (lower word) (get_all st).

(** [preprocess(text, stopwords_plugin, remove_stopwords)] *)
Definition preprocess (text : string) (st : custom_stopwords)
    (remove_stopwords : bool) : list string :=
  let words := findall (lower text) in
  if remove_stopwords
  then filter (fun word => negb (is_stopword st word)) words
  else words.

(* ------------------------------------------------------------------ *)
(** ** Association lists: Python dicts and the object heap *)

Fixpoint lookup {A} (k : string) (l : list (string * A)) : option A :=
  match l with
  | [] => None
  | (k', v) :: l' => if String.eqb k k' then Some v else lookup k l'
  end.

(** [d[k] = v] on a dict: an existing key keeps its position, a new key
    goes last (insertion order). *)
Fixpoint dict_set {A} (k : string) (v : A) (l : list (string * A))
    : list (string * A) :=
  match l with
  | [] => [(k, v)]
  | (k', v') :: l' =>
      if String.eqb k k' then (k', v) :: l' else (k', v') :: dict_set k v l'
  end.

(* ------------------------------------------------------------------ *)
(** ** The world: files, the JSON store, the stopword corpus, the heap *)

(** Parsed JSON values (numbers are copied through unchanged; the model
    keeps them as integers). *)
Inductive json :=
| JNull
| JBool (b : bool)
| JNum (z : Z)
| JStr (s : string)
| JArr (xs : list json)
| JObj (kvs : list (string * json)).

(** The content of the JSON storage file: parsed, or a text that
    [json.load] rejects. *)
Inductive json_file := JFile (data : json) | JMalformed (text : string).

(** ** The text of a JSON file

    [json.dump(data, f, indent=4)] with the default [ensure_ascii=True].
    The repository writes its JSON file only this way ([_save]) and as
    [json.dump({}, f)] ([_initialize_storage]), which gives the same text
    ["{}"]; a parsed file is read back as this text. *)

Definition char_str (n : nat) : string := String (ascii_of_nat n) EmptyString.

Definition hex_digit (n : nat) : string :=
  char_str (if Nat.ltb n 10 then 48 + n else 87 + n).

(** One character of a JSON string literal: [\] and the quote escaped,
    the short escapes of backspace, form feed, newline, carriage return
    and tab, and [\u00XX] for the other characters outside [' '..'~']. *)
Definition json_escape_char (c : ascii) : string :=
  let n := nat_of_ascii c in
  if Nat.eqb n 34 then char_str 92 ++ char_str 34
  else if Nat.eqb n 92 then char_str 92 ++ char_str 92
  else if Nat.eqb n 8 then char_str 92 ++ "b"
  else if Nat.eqb n 12 then char_str 92 ++ "f"
  else if Nat.eqb n 10 then char_str 92 ++ "n"
  else if Nat.eqb n 13 then char_str 92 ++ "r"
  else if Nat.eqb n 9 then char_str 92 ++ "t"
  else if Nat.leb 32 n && Nat.leb n 126 then String c EmptyString
  else char_str 92 ++ "u00" ++ hex_digit (n / 16) ++ hex_digit (n mod 16).

Fixpoint json_escape (s : string) : string :=
  match s with
  | EmptyString => EmptyString
  | String c s' => json_escape_char c ++ json_escape s'
  end.

Definition json_str (s : string) : string := char_str 34 ++ json_escape s ++ char_str 34.

(** The decimal digits of [n], in front of [acc]. *)
Fixpoint decimal_aux (fuel : nat) (n : N) (acc : string) : string :=
  match fuel with
  | O => acc
  | S f =>
      let acc' := String (ascii_of_N (48 + N.modulo n 10)) acc in
      if N.ltb n 10 then acc' else decimal_aux f (N.div n 10) acc'
  end.

(** [repr] of a Python int. *)
Definition z_repr (z : Z) : string :=
  match z with
  | Z0 => "0"
  | Zpos p => decimal_aux (Pos.size_nat p) (Npos p) EmptyString
  | Zneg p => "-" ++ decimal_aux (Pos.size_nat p) (Npos p) EmptyString
  end.

Definition newline : string := char_str 10.

Fixpoint spaces (k : nat) : string :=
  match k with O => EmptyString | S k' => String " " (spaces k') end.

Definition json_indent (level : nat) : string := newline ++ spaces (4 * level).

(** [json.dumps(v, indent=4)] at nesting depth [level]: items separated
    by [","] and a new indented line, keys followed by [": "]. *)
Fixpoint json_dumps (level : nat) (v : json) : string :=
  match v with
  | JNull => "null"
  | JBool true => "true"
  | JBool false => "false"
  | JNum z => z_repr z
  | JStr s => json_str s
  | JArr [] => "[]"
  | JArr xs =>
      "[" ++ json_indent (S level)
      ++ String.concat ("," ++ json_indent (S level)) (map (json_dumps (S level)) xs)
      ++ json_indent level ++ "]"
  | JObj [] => "{}"
  | JObj kvs =>
      "{" ++ json_indent (S level)
      ++ String.concat ("," ++ json_indent (S level))
           (map (fun '(k, x) => json_str k ++ ": " ++ json_dumps (S level) x) kvs)
      ++ json_indent level ++ "}"
  end.

(** What [open(path).read()] returns for the JSON file. *)
Definition json_file_text (jf : json_file) : string :=
  match jf with
  | JFile data => json_dumps 0 data
  | JMalformed text => text
  end.

(** A text file: its content as [open(p, "r", encoding="utf-8").read()]
    returns it, or the message of the error that reading it raises. *)
Inductive file_entry := Readable (text : string) | Unreadable (msg : string).

(** The exceptions raised.  [json.JSONDecodeError] is a subclass of
    [ValueError]; [is_value_error] is [isinstance(e, ValueError)]. *)
Inductive exn :=
| FileNotFoundError (msg : string)
| OSError (msg : string)
| JSONDecodeError
| AttributeError (msg : string)
| TypeError (msg : string)
| ValueError (msg : string)
| LookupError (msg : string)
(** a stored stopword list holding values other than strings *)
| Unsupported
(** a reference with no object of the expected class behind it; Python
    object references never dangle *)
| Dangling.

(** [isinstance(e, ValueError)] *)
Definition is_value_error (e : exn) : bool :=
  match e with
  | ValueError _ | JSONDecodeError => true
  | _ => false
  end.

(** [str(e)] *)
Definition exn_str (e : exn) : string :=
  match e with
  | FileNotFoundError m | OSError m | AttributeError m | TypeError m
  | ValueError m | LookupError m => m
  | JSONDecodeError => "Expecting value"
  | Unsupported => "unsupported stored value"
  | Dangling => "dangling reference"
  end.

(** Values stored in the result dicts. *)
Inductive pyval :=
| VNone
| VBool (b : bool)
| VInt (z : Z)
| VFloat (f : float)
| VStr (s : string)
| VList (xs : list pyval)
| VTuple (xs : list pyval).

Definition pydict := list (string * pyval).

(** [NLPPipeline] instance attributes. *)
Record pipeline := mkPipeline {
  default_type : string;
  processors : list (string * nat);    (** [self.processors] *)
  results : list nat                   (** [self.results] *)
}.

(** Heap objects, referenced by number. *)
Inductive obj :=
| OStore (st : custom_stopwords)
| OProcessor (stopwords_plugin : nat)     (** a [TextProcessor] *)
| ODict (d : pydict)
| OPipeline (p : pipeline).

Record world := mkWorld {
  files : list (string * file_entry);
  json_files : list (string * json_file);
  corpus : list (string * list string);  (** [nltk.corpus.stopwords] *)
  heap : list (nat * obj);
  next_ref : nat
}.

Fixpoint heap_get (r : nat) (h : list (nat * obj)) : option obj :=
  match h with
  | [] => None
  | (r', o) :: h' => if Nat.eqb r r' then Some o else heap_get r h'
  end.

Fixpoint heap_set (r : nat) (o : obj) (h : list (nat * obj)) : list (nat * obj) :=
  match h with
  | [] => []
  | (r', o') :: h' => if Nat.eqb r r' then (r', o) :: h' else (r', o') :: heap_set r o h'
  end.

Definition set_heap (w : world) (h : list (nat * obj)) : world :=
  mkWorld (files w) (json_files w) (corpus w) h (next_ref w).

Definition set_json_files (w : world) (j : list (string * json_file)) : world :=
  mkWorld (files w) j (corpus w) (heap w) (next_ref w).

(** The file system as [open] and [os.path.exists] see it: the text files
    of [files], and the JSON files of [json_files] with their text.  The
    two lists name different paths; [files] is consulted first. *)
Definition fs_lookup (path : string) (w : world) : option file_entry :=
  match lookup path (files w) with
  | Some fe => Some fe
  | None =>
      match lookup path (json_files w) with
      | Some jf => Some (Readable (json_file_text jf))
      | None => None
      end
  end.

(* ------------------------------------------------------------------ *)
(** ** A state and exception monad

    A Python statement either returns or raises; the effects it made
    before raising stay. *)

Definition M (A : Type) : Type := world -> (A + exn) * world.

Definition ret {A} (a : A) : M A := fun w => (inl a, w).
Definition raise {A} (e : exn) : M A := fun w => (inr e, w).
Definition bind {A B} (m : M A) (k : A -> M B) : M B :=
  fun w => match m w with
           | (inl a, w') => k a w'
           | (inr e, w') => (inr e, w')
           end.

Notation "x <- m ;; k" := (bind m (fun x => k))
  (at level 61, m at next level, right associativity).

(** [try: m except: handler] *)
Definition try_except {A} (m : M A) (handler : exn -> M A) : M A :=
  fun w => match m w with
           | (inl a, w') => (inl a, w')
           | (inr e, w') => handler e w'
           end.

Definition alloc (o : obj) : M nat :=
  fun w => (inl (next_ref w),
            mkWorld (files w) (json_files w) (corpus w)
                    ((next_ref w, o) :: heap w) (S (next_ref w))).

Definition put_obj (r : nat) (o : obj) : M unit :=
  fun w => (inl tt, set_heap w (heap_set r o (heap w))).

Definition get_store (r : nat) : M custom_stopwords :=
  fun w => match heap_get r (heap w) with
           | Some (OStore st) => (inl st, w)
           | _ => (inr Dangling, w)
           end.

Definition get_processor_obj (r : nat) : M nat :=
  fun w => match heap_get r (heap w) with
           | Some (OProcessor s) => (inl s, w)
           | _ => (inr Dangling, w)
           end.

Definition get_dict (r : nat) : M pydict :=
  fun w => match heap_get r (heap w) with
           | Some (ODict d) => (inl d, w)
           | _ => (inr Dangling, w)
           end.

Definition get_pipeline (r : nat) : M pipeline :=
  fun w => match heap_get r (heap w) with
           | Some (OPipeline p) => (inl p, w)
           | _ => (inr Dangling, w)
           end.

(* ------------------------------------------------------------------ *)
(** ** [CustomStopwords] methods *)

(** [_initialize_storage], run by [__init__] when
    [os.path.exists(self.storage_path)] is false: [json.dump({}, f)]. *)
Definition ensure_storage (path : string) : M unit :=
  fun w => match lookup path (json_files w) with
           | Some _ => (inl tt, w)
           | None => (inl tt, set_json_files w (dict_set path (JFile (JObj [])) (json_files w)))
           end.

(** [set(v)] for the value read from the JSON file. *)
Definition py_set_of_json (v : json) : list string + exn :=
  match v with
  | JArr xs =>
      let strs := fold_right (fun x acc =>
                    match x, acc with
                    | JStr s, Some l => Some (s :: l)
                    | _, _ => None
                    end) (Some []) xs in
      match strs with Some l => inl (py_set l) | None => inr Unsupported end
  | JStr s => inl (py_set (map (fun c => String c EmptyString) (list_ascii_of_string s)))
  | JObj kvs => inl (py_set (map fst kvs))
  | JNull => inr (TypeError "'NoneType' object is not iterable")
  | JBool _ => inr (TypeError "'bool' object is not iterable")
  | JNum _ => inr (TypeError "'int' object is not iterable")
  end.

(** [_load_custom_stopwords]: returns the loaded
    [(custom_stopwords, base_stopwords)]. *)
Definition load_custom_stopwords (lang path : string) : M (list string * list string) :=
  fun w =>
    match lookup path (json_files w) with
    | None => (inr (FileNotFoundError "No such file or directory"), w)
    | Some (JMalformed _) => (inr JSONDecodeError, w)
    | Some (JFile data) =>
        match data with
        | JObj kvs =>
            let v := match lookup lang kvs with Some v => v | None => JArr [] end in
            match py_set_of_json v with
            | inr e => (inr e, w)
            | inl custom =>
                match lookup lang (corpus w) with
                | Some base => (inl (custom, py_set base), w)
                | None => (inr (LookupError "Resource stopwords not found"), w)
                end
            end
        | _ => (inr (AttributeError "object has no attribute 'get'"), w)
        end
    end.

(** [CustomStopwords(language, storage_path)]: a new store object. *)
Definition new_custom_stopwords (lang path : string) : M nat :=
  _ <- ensure_storage path ;;
  cb <- load_custom_stopwords lang path ;;
  alloc (OStore (mkCustomStopwords lang path (fst cb) (snd cb))).

(** [_save]: read the whole mapping, set this language's entry to the
    sorted custom list, write the mapping back. *)
Definition save (r : nat) : M unit :=
  st <- get_store r ;;
  fun w =>
    match lookup (storage_path st) (json_files w) with
    | None => (inr (FileNotFoundError "No such file or directory"), w)
    | Some (JMalformed _) => (inr JSONDecodeError, w)
    | Some (JFile (JObj kvs)) =>
        let data := dict_set (language st)
                      (JArr (map JStr (py_sorted (custom_stopwords_set st)))) kvs in
        (inl tt, set_json_files w (dict_set (storage_path st) (JFile (JObj data)) (json_files w)))
    | Some (JFile _) => (inr (TypeError "object does not support item assignment"), w)
    end.

(** The argument of [add] and [remove]: [Union[str, List[str]]]. *)
Inductive words_arg := OneWord (word : string) | Words (words : list string).

(** [if isinstance(words, str): words = [words]] *)
Definition arg_list (a : words_arg) : list string :=
  match a with OneWord x => [x] | Words xs => xs end.

Definition with_custom (st : custom_stopwords) (c : list string) : custom_stopwords :=
  mkCustomStopwords (language st) (storage_path st) c (base_stopwords st).

(** [add]: [self.custom_stopwords.update(word.lower() for word in words)]
    then [self._save()]. *)
Definition add (r : nat) (words : words_arg) : M unit :=
  st <- get_store r ;;
  _ <- put_obj r (OStore (with_custom st
         (fold_left (fun acc word => set_add (lower word) acc)
                    (arg_list words) (custom_stopwords_set st)))) ;;
  save r.

(** [remove]: [self.custom_stopwords.discard(word.lower())] for each word,
    then [self._save()]. *)
Definition remove (r : nat) (words : words_arg) : M unit :=
  st <- get_store r ;;
  _ <- put_obj r (OStore (with_custom st
         (fold_left (fun acc word => set_discard (lower word) acc)
                    (arg_list words) (custom_stopwords_set st)))) ;;
  save r.

(* ------------------------------------------------------------------ *)
(** ** [collections.Counter] and [most_common] *)

(** Counting one more occurrence; a new key goes last, so the counter
    lists words in order of first occurrence. *)
Fixpoint counter_add (x : string) (c : list (string * nat)) : list (string * nat) :=
  match c with
  | [] => [(x, 1)]
  | (y, n) :: c' => if String.eqb x y then (y, S n) :: c' else (y, n) :: counter_add x c'
  end.

(** [Counter(xs)] *)
Definition counter (xs : list string) : list (string * nat) :=
  fold_left (fun c x => counter_add x c) xs [].

(** [sorted(items, key=itemgetter(1), reverse=True)]: stable, so equal
    counts keep their order. *)
Fixpoint insert_by_count (p : string * nat) (l : list (string * nat))
    : list (string * nat) :=
  match l with
  | [] => [p]
  | q :: l' => if Nat.leb (snd q) (snd p) then p :: l else q :: insert_by_count p l'
  end.

Definition sort_by_count (l : list (string * nat)) : list (string * nat) :=
  fold_right insert_by_count [] l.

(** [most_common(n)] is [heapq.nlargest(n, items, key=itemgetter(1))],
    which equals the stable descending sort cut after [n] items and is
    empty for [n <= 0]. *)
Definition most_common (n : Z) (c : list (string * nat)) : list (string * nat) :=
  firstn (Z.to_nat n) (sort_by_count c).

(* ------------------------------------------------------------------ *)
(** ** [TextProcessor] *)

(** [TextProcessor(stopwords_plugin=s)]; the plugin is always given and an
    instance is truthy, so [stopwords_plugin or CustomStopwords()] is [s]. *)
Definition new_text_processor (s : nat) : M nat := alloc (OProcessor s).

(** The dict returned by [TextProcessor.process_file]. *)
Record file_result := mkFileResult {
  fr_file : string;
  fr_original_text : string;
  fr_tokens : list string;
  fr_token_count : nat;
  fr_unique_tokens : nat;
  fr_remove_stopwords : bool
}.

(** [open(file_path, "r", encoding="utf-8").read()] *)
Definition read_file (path : string) : M string :=
  fun w => match fs_lookup path w with
           | None => (inr (FileNotFoundError ("No such file or directory: '" ++ path ++ "'")), w)
           | Some (Unreadable m) => (inr (OSError m), w)
           | Some (Readable text) => (inl text, w)
           end.

(** [TextProcessor.process_file] *)
Definition tp_process_file (self : nat) (file_path : string) (remove_stopwords : bool)
    : M file_result :=
  s <- get_processor_obj self ;;
  st <- get_store s ;;
  fun w =>
    match fs_lookup file_path w with
    | None => (inr (FileNotFoundError ("File not found: " ++ file_path)), w)
    | Some _ =>
        (text <- read_file file_path ;;
         let tokens := preprocess text st remove_stopwords in
         ret (mkFileResult file_path text tokens (length tokens)
                (length (py_set tokens)) remove_stopwords)) w
    end.

(** [TextProcessor.get_word_frequency] *)
Definition get_word_frequency (self : nat) (file_path : string) (top_n : Z)
    (remove_stopwords : bool) : M (list (string * nat)) :=
  result <- tp_process_file self file_path remove_stopwords ;;
  ret (most_common top_n (counter (fr_tokens result))).

(* ------------------------------------------------------------------ *)
(** ** Document-type factories and [ProcessorRegistry] *)

Definition web_terms : list string :=
  ["html"; "css"; "javascript"; "browser"; "page"; "link"; "button"; "form"].
Definition business_terms : list string :=
  ["company"; "business"; "market"; "customer"; "product"; "revenue"; "profit"].
Definition academic_terms : list string :=
  ["abstract"; "introduction"; "conclusion"; "method"; "result"; "study";
   "research"; "paper"; "author"].
Definition news_terms : list string :=
  ["said"; "says"; "reported"; "according"; "news"; "article"; "story";
   "source"; "today"].

Definition create_technical_processor : M nat :=
  stopwords <- new_custom_stopwords "english" "custom_stopwords.json" ;;
  new_text_processor stopwords.

Definition create_web_content_processor : M nat :=
  stopwords <- new_custom_stopwords "english" "custom_stopwords.json" ;;
  _ <- add stopwords (Words web_terms) ;;
  new_text_processor stopwords.

Definition create_business_processor : M nat :=
  stopwords <- new_custom_stopwords "english" "custom_stopwords.json" ;;
  _ <- add stopwords (Words business_terms) ;;
  new_text_processor stopwords.

Definition create_academic_processor : M nat :=
  stopwords <- new_custom_stopwords "english" "custom_stopwords.json" ;;
  _ <- add stopwords (Words academic_terms) ;;
  new_text_processor stopwords.

Definition create_news_processor : M nat :=
  stopwords <- new_custom_stopwords "english" "custom_stopwords.json" ;;
  _ <- add stopwords (Words news_terms) ;;
  new_text_processor stopwords.

(** [ProcessorRegistry._processors] *)
Definition registry : list (string * M nat) :=
  [("technical", create_technical_processor);
   ("web", create_web_content_processor);
   ("business", create_business_processor);
   ("academic", create_academic_processor);
   ("news", create_news_processor)].

(** [ProcessorRegistry.get_processor]: [cls._processors[doc_type]()] *)
Definition registry_get_processor (doc_type : string) : M nat :=
  match lookup doc_type registry with
  | Some factory => factory
  | None =>
      raise (ValueError ("Unknown document type '" ++ doc_type ++ "'. Available: "
                         ++ String.concat ", " (map fst registry)))
  end.

(* ------------------------------------------------------------------ *)
(** ** Floating-point arithmetic of [process_text]

    Python floats are IEEE binary64, Rocq's primitive [float]. *)

Open Scope float_scope.

(** [float(z)]: the nearest double to the integer [z]. *)
Definition float_of_Z (z : Z) : float :=
  SF2Prim (binary_normalize prec emax z 0%Z false).

(** [a / b] on Python ints is the double nearest to the exact quotient.
    Both operands here are lengths of lists held in memory, far below
    [2^53], so they convert exactly and one IEEE division rounds the
    quotient once, as Python does. *)
Definition int_truediv (a b : Z) : float := float_of_Z a / float_of_Z b.

(** Round half to even of [num / den] for [den > 0]. *)
Definition round_half_even (num den : Z) : Z :=
  let q := Z.div num den in
  let r := Z.modulo num den in
  match Z.compare (2 * r) den with
  | Lt => q
  | Gt => q + 1
  | Eq => if Z.even q then q else q + 1
  end%Z.

(** [round(x, 2)] on a float.  CPython rounds the exact binary value of
    [x] to two decimals (half to even) and converts the decimal back to
    the nearest double, keeping the sign of [x] on a zero result.  When
    [|x| >= 2^46] the decimal lies within half an ulp of [x], so the
    result is [x]; below that bound [100 * round(x, 2)] is an integer of
    at most 53 bits and one division by 100 gives the nearest double. *)
Definition py_round2 (x : float) : float :=
  match Prim2SF x with
  | S754_finite s m e =>
      let num := (Z.pos m * (if Z.leb 0 e then 2 ^ e else 1))%Z in
      let den := (if Z.leb 0 e then 1 else 2 ^ (- e))%Z in
      if Z.leb (2 ^ 46 * den) num then x
      else
        let n := round_half_even (100 * num) den in
        if Z.eqb n 0 then (if s then neg_zero else zero)
        else float_of_Z (if s then Z.opp n else n) / float_of_Z 100
  | _ => x
  end.

Close Scope float_scope.

(** The ["reduction_percent"] entry:
    [round((1 - len(tokens) / len(text.split())) * 100, 2)
       if text.split() else 0]. *)
Definition reduction_percent (tokens : list string) (text : string) : pyval :=
  match py_split text with
  | [] => VInt 0
  | words =>
      VFloat (py_round2
        ((PrimFloat.one - int_truediv (Z.of_nat (length tokens)) (Z.of_nat (length words)))
         * float_of_Z 100)%float)
  end.

(* ------------------------------------------------------------------ *)
(** ** [NLPPipeline] *)

(** [NLPPipeline(default_type)] *)
Definition new_pipeline (default : string) : M nat :=
  alloc (OPipeline (mkPipeline default [] [])).

(** [doc_type or self.default_type] *)
Definition doc_type_or (doc_type : option string) (default : string) : string :=
  match doc_type with
  | Some d => if String.eqb d "" then default else d
  | None => default
  end.

(** [NLPPipeline.get_processor] *)
Definition pipeline_get_processor (self : nat) (doc_type : string) : M nat :=
  p <- get_pipeline self ;;
  match lookup doc_type (processors p) with
  | Some t => ret t
  | None =>
      t <- registry_get_processor doc_type ;;
      p' <- get_pipeline self ;;
      _ <- put_obj self (OPipeline (mkPipeline (default_type p')
                                     (dict_set doc_type t (processors p')) (results p'))) ;;
      ret t
  end.

(** [freq.most_common(top_n)] as a list of [(word, count)] tuples. *)
Definition top_words_val (l : list (string * nat)) : pyval :=
  VList (map (fun wc => VTuple [VStr (fst wc); VInt (Z.of_nat (snd wc))]) l).

(** The dict built by [NLPPipeline.process_text] for document type [dt]
    from the tokens of [text] filtered through the store [st]. *)
Definition text_result (dt text : string) (st : custom_stopwords)
    (get_frequency : bool) (top_n : Z) : pydict :=
  let tokens := preprocess text st true in
  let result :=
    [("type", VStr dt);
     ("original_length", VInt (Z.of_nat (String.length text)));
     ("token_count", VInt (Z.of_nat (length tokens)));
     ("unique_tokens", VInt (Z.of_nat (length (py_set tokens))));
     ("tokens", VList (map VStr tokens));
     ("reduction_percent", reduction_percent tokens text)] in
  if get_frequency
  then dict_set "top_words" (top_words_val (most_common top_n (counter tokens))) result
  else result.

(** [NLPPipeline.process_text]: returns the reference of the result dict,
    which it also appends to [self.results]. *)
Definition process_text (self : nat) (text : string) (doc_type : option string)
    (get_frequency : bool) (top_n : Z) : M nat :=
  p <- get_pipeline self ;;
  let dt := doc_type_or doc_type (default_type p) in
  processor <- pipeline_get_processor self dt ;;
  s <- get_processor_obj processor ;;
  st <- get_store s ;;
  r <- alloc (ODict (text_result dt text st get_frequency top_n)) ;;
  p' <- get_pipeline self ;;
  _ <- put_obj self (OPipeline (mkPipeline (default_type p') (processors p')
                                  (results p' ++ [r]))) ;;
  ret r.

(** [NLPPipeline.process_file]: the processor is resolved before the
    [try]; inside it, a read error becomes an error dict. *)
Definition process_file (self : nat) (file_path : string) (doc_type : option string)
    (get_frequency : bool) (top_n : Z) : M nat :=
  p <- get_pipeline self ;;
  let dt := doc_type_or doc_type (default_type p) in
  _ <- pipeline_get_processor self dt ;;
  try_except
    (text <- read_file file_path ;;
     result <- process_text self text (Some dt) get_frequency top_n ;;
     d <- get_dict result ;;
     _ <- put_obj result (ODict (dict_set "file" (VStr file_path) d)) ;;
     ret result)
    (fun e =>
       match e with
       | FileNotFoundError _ =>
           alloc (ODict [("file", VStr file_path); ("error", VStr "File not found")])
       | _ =>
           alloc (ODict [("file", VStr file_path); ("error", VStr (exn_str e))])
       end).

(* ------------------------------------------------------------------ *)
(** ** Maximal runs of word characters

    [word_runs s toks]: [toks] lists the maximal runs of word characters
    of [s], left to right; every other character separates. *)

Fixpoint all_word (s : string) : bool :=
  match s with
  | EmptyString => true
  | String c s' => is_word c && all_word s'
  end.

Definition starts_nonword (s : string) : bool :=
  match s with
  | EmptyString => true
  | String c _ => negb (is_word c)
  end.

Inductive word_runs : string -> list string -> Prop :=
| runs_nil : word_runs EmptyString []
| runs_skip : forall c s toks,
    is_word c = false -> word_runs s toks -> word_runs (String c s) toks
| runs_word : forall w s toks,
    w <> EmptyString -> all_word w = true -> starts_nonword s = true ->
    word_runs s toks -> word_runs (w ++ s) (w :: toks).

(* ------------------------------------------------------------------ *)
(** ** Reading [Counter] results *)

(** [c[y]]: the count of [y], zero when absent. *)
Fixpoint cget (y : string) (c : list (string * nat)) : nat :=
  match c with
  | [] => 0
  | (z, n) :: c' => if String.eqb y z then n else cget y c'
  end.

(** The descending order on counts. *)
Definition by_count_desc (p q : string * nat) : Prop := (snd q <= snd p)%nat.

(* ------------------------------------------------------------------ *)
(** ** Heap invariants

    [wf w]: every object of the heap lives below [next_ref w], so [alloc]
    always hands out a fresh reference. *)

Definition wf (w : world) : bool :=
  forallb (fun ro => Nat.ltb (fst ro) (next_ref w)) (heap w).

(** [grows w w1]: [w1] came from [w] by allocating and by mutating only
    objects allocated after [w]; the text files are untouched. *)
Definition grows (w w1 : world) : Prop :=
  (next_ref w <= next_ref w1)%nat /\ files w1 = files w /\
  forall r, (r < next_ref w)%nat -> heap_get r (heap w1) = heap_get r (heap w).

(** [keeps_others self w w1]: as [grows], except that the pipeline object
    [self] may have changed; the JSON files are untouched too. *)
Definition keeps_others (self : nat) (w w1 : world) : Prop :=
  wf w1 = true /\ files w1 = files w /\ json_files w1 = json_files w /\ (next_ref w <= next_ref w1)%nat /\
  forall r, r <> self -> (r < next_ref w)%nat -> heap_get r (heap w1) = heap_get r (heap w).

(** The preset word list a document-type factory adds to the store. *)
Definition preset_terms (doc : string) : list string :=
  if String.eqb doc "web" then web_terms
  else if String.eqb doc "business" then business_terms
  else if String.eqb doc "academic" then academic_terms
  else if String.eqb doc "news" then news_terms
  else [].

(** [vsafe P m Q]: run from a state satisfying [P], [m] either returns
    [a] in a state satisfying [Q a], or raises an exception that is not
    an instance of [ValueError]. *)
Definition vsafe {A} (P : world -> Prop) (m : M A) (Q : A -> world -> Prop) : Prop :=
  forall w, P w -> match m w with
                   | (inl a, w') => Q a w'
                   | (inr e, _) => is_value_error e = false
                   end.

(** The stopword file of the factories is absent or parsable. *)
Definition storage_ok (w : world) : Prop :=
  forall t, lookup "custom_stopwords.json" (json_files w) <> Some (JMalformed t).

(** [r] is a store saving to the factories' stopword file. *)
Definition csj_store (r : nat) (w : world) : Prop :=
  exists st, heap_get r (heap w) = Some (OStore st) /\
             storage_path st = "custom_stopwords.json".

(* ------------------------------------------------------------------ *)
(** ** The rest of [TextProcessor] *)

(** [TextProcessor.process_directory].  [glob.glob(os.path.join(directory,
    pattern))] lists the directory; the matches, in the order it returns
    them, are the argument [matches].  A result is either the dict of
    [process_file] or the error dict [{"file": file_path, "error": str(e)}],
    here the pair of the path and the message. *)
Fixpoint tp_process_paths (self : nat) (matches : list string) (remove_stopwords : bool)
    : M (list (file_result + (string * string))) :=
  match matches with
  | [] => ret []
  | file_path :: rest =>
      result <- try_except
                  (r <- tp_process_file self file_path remove_stopwords ;; ret (inl r))
                  (fun e => ret (inr (file_path, exn_str e))) ;;
      results <- tp_process_paths self rest remove_stopwords ;;
      ret (result :: results)
  end.

Definition tp_process_directory (self : nat) (matches : list string)
    (remove_stopwords : bool) : M (list (file_result + (string * string))) :=
  tp_process_paths self matches remove_stopwords.

(** [TextProcessor.add_custom_stopwords]: [self.stopwords_plugin.add(words)] *)
Definition add_custom_stopwords (self : nat) (words : words_arg) : M unit :=
  s <- get_processor_obj self ;;
  add s words.

(** [TextProcessor.remove_custom_stopwords]: [self.stopwords_plugin.remove(words)] *)
Definition remove_custom_stopwords (self : nat) (words : words_arg) : M unit :=
  s <- get_processor_obj self ;;
  remove s words.

(** [TextProcessor.get_stopwords_stats] *)
Definition get_stopwords_stats (self : nat) : M pydict :=
  s <- get_processor_obj self ;;
  st <- get_store s ;;
  ret [("total_stopwords", VInt (Z.of_nat (length (get_all st))));
       ("base_stopwords", VInt (Z.of_nat (length (base_stopwords st))));
       ("custom_stopwords", VInt (Z.of_nat (length (custom_stopwords_set st))));
       ("custom_words_list", VList (map VStr (py_sorted (custom_stopwords_set st))))].

(** [ProcessorRegistry.list_types]: [list(cls._processors.keys())] *)
Definition list_types : list string := map fst registry.

(* ------------------------------------------------------------------ *)
(** ** The rest of [NLPPipeline] *)

(** [NLPPipeline.process_batch]: [self.process_text(text, doc_type)] for
    each pair, with the defaults [get_frequency=False] and [top_n=10]. *)
Fixpoint process_batch (self : nat) (texts : list (string * string)) : M (list nat) :=
  match texts with
  | [] => ret []
  | (text, doc_type) :: rest =>
      result <- process_text self text (Some doc_type) false 10 ;;
      results <- process_batch self rest ;;
      ret (result :: results)
  end.

(** [file_path.is_file()] for a path the glob yielded: the regular files
    are the paths [fs_lookup] finds; any other match is a directory. *)
Definition is_file (path : string) : M bool :=
  fun w => (inl (match fs_lookup path w with Some _ => true | None => false end), w).

Fixpoint pl_process_paths (self : nat) (matches : list string) (doc_type : string)
    (get_frequency : bool) : M (list nat) :=
  match matches with
  | [] => ret []
  | file_path :: rest =>
      f <- is_file file_path ;;
      if f then
        result <- process_file self file_path (Some doc_type) get_frequency 10 ;;
        results <- pl_process_paths self rest doc_type get_frequency ;;
        ret (result :: results)
      else pl_process_paths self rest doc_type get_frequency
  end.

(** [NLPPipeline.process_directory]: [matches] is what
    [Path(directory).glob(pattern)] yields, in its order. *)
Definition pl_process_directory (self : nat) (matches : list string)
    (doc_type : option string) (get_frequency : bool) : M (list nat) :=
  p <- get_pipeline self ;;
  let dt := doc_type_or doc_type (default_type p) in
  pl_process_paths self matches dt get_frequency.

(** [r.get(k, 0)] for a count entry of a logged dict.  The code only ever
    stores ints there; other values are left out of the model. *)
Definition get_count (k : string) (d : pydict) : M Z :=
  match lookup k d with
  | None => ret 0%Z
  | Some (VInt z) => ret z
  | Some _ => raise Unsupported
  end.

(** [sum(r.get(k, 0) for r in self.results)] *)
Fixpoint sum_counts (k : string) (refs : list nat) : M Z :=
  match refs with
  | [] => ret 0%Z
  | r :: rest =>
      d <- get_dict r ;;
      c <- get_count k d ;;
      s <- sum_counts k rest ;;
      ret (c + s)%Z
  end.

(** [[r.get("type") for r in self.results if "type" in r]]; the code only
    stores strings under ["type"]. *)
Fixpoint result_types (refs : list nat) : M (list string) :=
  match refs with
  | [] => ret []
  | r :: rest =>
      d <- get_dict r ;;
      ts <- result_types rest ;;
      match lookup "type" d with
      | None => ret ts
      | Some (VStr t) => ret (t :: ts)
      | Some _ => raise Unsupported
      end
  end.

(** [NLPPipeline.get_pipeline_stats].  [list(set(...))] lists the types in
    the iteration order of a string set, which depends on the hash seed;
    the model lists them in order of first occurrence, and only which
    types are listed is meaningful. *)
Definition get_pipeline_stats (self : nat) : M pydict :=
  p <- get_pipeline self ;;
  match results p with
  | [] => ret [("message", VStr "No results yet")]
  | rs =>
      total_tokens <- sum_counts "token_count" rs ;;
      total_unique <- sum_counts "unique_tokens" rs ;;
      types <- result_types rs ;;
      ret [("total_documents", VInt (Z.of_nat (length rs)));
           ("total_tokens", VInt total_tokens);
           ("total_unique_tokens", VInt total_unique);
           ("avg_tokens_per_doc",
              VFloat (py_round2 (int_truediv total_tokens (Z.of_nat (length rs)))));
           ("document_types", VList (map VStr (py_set types)))]
  end.

(** [NLPPipeline.reset]: [self.results = []] *)
Definition reset (self : nat) : M unit :=
  p <- get_pipeline self ;;
  put_obj self (OPipeline (mkPipeline (default_type p) (processors p) [])).

(* ------------------------------------------------------------------ *)
(** ** A sample state

    A store at reference 0 (English, custom word ["foo"]), a processor over
    it at 1 and a pipeline at 2 with default document type [default]; the
    stopword file also holds a French entry. *)

Definition demo_store : custom_stopwords :=
  mkCustomStopwords "english" "custom_stopwords.json" ["foo"] ["the"; "a"; "is"].

Definition demo_kvs : list (string * json) :=
  [("english", JArr [JStr "foo"]); ("french", JArr [JStr "le"])].

Definition demo_world_with (default : string) : world :=
  mkWorld
    [("notes.txt", Readable "a a b b b c"); ("locked.txt", Unreadable "Permission denied")]
    [("custom_stopwords.json", JFile (JObj demo_kvs))]
    [("english", ["the"; "a"; "is"])]
    [(2, OPipeline (mkPipeline default [] [])); (1, OProcessor 0); (0, OStore demo_store)]
    3.

Definition demo_world : world := demo_world_with "technical".

(** The sample state once the pipeline has cached the processor at 1 for
    its default type. *)
Definition demo_cached_world : world :=
  mkWorld (files demo_world) (json_files demo_world) (corpus demo_world)
    [(2, OPipeline (mkPipeline "technical" [("technical", 1)] []));
     (1, OProcessor 0); (0, OStore demo_store)]
    3.

(** The sample state without the English stopword list of the corpus,
    and with a stopword file that does not parse. *)
Definition demo_world_no_corpus : world :=
  mkWorld (files demo_world) (json_files demo_world) [] (heap demo_world) 3.

Definition demo_world_malformed : world :=
  set_json_files demo_world [("custom_stopwords.json", JMalformed "{")].

(** The sample state before any stopword file exists. *)
Definition demo_world_fresh : world := set_json_files demo_world [].

(** [pipeline.process_file("notes.txt")] on the sample state, and the dict
    it returns. *)
Definition demo_file_run : (nat + exn) * world :=
  process_file 2 "notes.txt" None false 5 demo_world.

Definition demo_file_dict : pydict :=
  match heap_get 5 (heap (snd demo_file_run)) with Some (ODict d) => d | _ => [] end.

(* ================================================================== *)
(** * Proofs *)

(** ** Strings *)

Lemma str_app_nil_r (s : string) : s ++ EmptyString = s.
Proof. induction s as [|c s IH]; simpl; [reflexivity | now rewrite IH]. Qed.

Lemma str_app_assoc (a b c : string) : (a ++ b) ++ c = a ++ (b ++ c).
Proof. induction a as [|x a IH]; simpl; [reflexivity | now rewrite IH]. Qed.

Lemma all_word_app (a b : string) :
  all_word (a ++ b) = all_word a && all_word b.
Proof.
  induction a as [|c a IH]; simpl; [reflexivity|].
  now rewrite IH, andb_assoc.
Qed.

(** Two maximal runs that start the same text are the same run. *)
Lemma maximal_run_unique (w1 w2 s1 s2 : string) :
  all_word w1 = true -> all_word w2 = true ->
  starts_nonword s1 = true -> starts_nonword s2 = true ->
  w1 ++ s1 = w2 ++ s2 -> w1 = w2 /\ s1 = s2.
Proof.
  revert w2. induction w1 as [|c1 w1 IH]; intros [|c2 w2] H1 H2 Hs1 Hs2 Heq;
    simpl in *.
  - split; [reflexivity | exact Heq].
  - subst s1. simpl in Hs1. apply andb_true_iff in H2 as [Hc _].
    now rewrite Hc in Hs1.
  - subst s2. simpl in Hs2. apply andb_true_iff in H1 as [Hc _].
    now rewrite Hc in Hs2.
  - injection Heq as -> Heq.
    apply andb_true_iff in H1 as [_ H1]. apply andb_true_iff in H2 as [_ H2].
    destruct (IH w2 H1 H2 Hs1 Hs2 Heq) as [-> ->]. split; reflexivity.
Qed.

Lemma word_start_not_nonword (w s : string) (c : ascii) (s' : string) :
  w <> EmptyString -> all_word w = true -> w ++ s = String c s' -> is_word c = true.
Proof.
  destruct w as [|c0 w]; simpl; [congruence|].
  intros _ Hw Heq. injection Heq as -> _.
  now apply andb_true_iff in Hw as [Hw _].
Qed.

(** The scanner of [re.findall] produces the maximal runs: with a pending
    run [cur], it tokenizes [cur ++ s]. *)
Lemma findall_words_runs (s cur : string) :
  all_word cur = true -> word_runs (cur ++ s) (findall_words s cur).
Proof.
  revert cur. induction s as [|c s IH]; intros cur Hcur; simpl.
  - rewrite str_app_nil_r. destruct cur as [|c cur]; simpl.
    + constructor.
    + rewrite <- (str_app_nil_r (String c cur)) at 1.
      apply runs_word; [discriminate | exact Hcur | reflexivity | constructor].
  - destruct (is_word c) eqn:Hc.
    + replace (cur ++ String c s) with ((cur ++ String c EmptyString) ++ s)
        by (rewrite str_app_assoc; reflexivity).
      apply IH. rewrite all_word_app, Hcur. simpl. now rewrite Hc.
    + assert (Hrest : word_runs (String c s) (findall_words s EmptyString)).
      { apply runs_skip; [exact Hc | apply (IH EmptyString); reflexivity]. }
      destruct cur as [|c0 cur]; simpl.
      * exact Hrest.
      * apply (runs_word (String c0 cur) (String c s));
          [discriminate | exact Hcur | simpl; now rewrite Hc | exact Hrest].
Qed.

Lemma findall_runs (s : string) : word_runs s (findall s).
Proof. apply (findall_words_runs s EmptyString). reflexivity. Qed.

Lemma word_runs_unique (s : string) (t1 t2 : list string) :
  word_runs s t1 -> word_runs s t2 -> t1 = t2.
Proof.
  intros H1. revert t2.
  induction H1 as [| c s toks Hc Hs IH | w s toks Hne Hw Hst Hs IH];
    intros t2 H2.
  - inversion H2 as [| |w s toks Hne Hw Hst Hs Heq]; [reflexivity|].
    destruct w; [congruence | discriminate].
  - inversion H2 as [|c' s' toks' Hc' Hs' | w s' toks' Hne Hw Hst Hs' Heq]; subst.
    + now apply IH.
    + pose proof (word_start_not_nonword _ _ _ _ Hne Hw Heq). congruence.
  - inversion H2 as [Heq| c' s' toks' Hc' Hs' Heq | w' s' toks' Hne' Hw' Hst' Hs' Heq].
    + destruct w; [congruence | discriminate].
    + pose proof (word_start_not_nonword _ _ _ _ Hne Hw (eq_sym Heq)). congruence.
    + destruct (maximal_run_unique w w' s s' Hw Hw' Hst Hst' (eq_sym Heq))
        as [-> ->].
      f_equal. now apply IH.
Qed.

(** ** C4: [preprocess] *)

(** C4. Without stopword removal, [preprocess] returns exactly the list of
    maximal runs of word characters of the lowercased text, left to right
    and never empty; with removal, it returns the sublist of those tokens
    [t] with [is_stopword t] false, in order and with duplicates kept. *)
Theorem preprocess_tokens_and_filter (text : string) (st : custom_stopwords) :
  (forall toks, preprocess text st false = toks <-> word_runs (lower text) toks) /\
  preprocess text st true
    = filter (fun t => negb (is_stopword st t)) (preprocess text st false).
Proof.
  unfold preprocess. split; [|reflexivity].
  intros toks. split.
  - intros <-. apply findall_runs.
  - intros H. eapply word_runs_unique; [apply findall_runs | exact H].
Qed.

(** ** Sets as lists *)

Lemma mem_app (x : string) (a b : list string) : mem x (a ++ b) = mem x a || mem x b.
Proof. unfold mem. apply existsb_app. Qed.

Lemma mem_set_add (x y : string) (l : list string) :
  mem x (set_add y l) = String.eqb x y || mem x l.
Proof.
  unfold set_add. destruct (mem y l) eqn:Hy.
  - destruct (String.eqb_spec x y) as [->|]; simpl; [now rewrite Hy|reflexivity].
  - rewrite mem_app. simpl. rewrite orb_false_r, orb_comm. reflexivity.
Qed.

Lemma mem_fold_set_add (f : string -> string) (x : string) (ws l : list string) :
  mem x (fold_left (fun acc w => set_add (f w) acc) ws l)
  = existsb (fun w => String.eqb x (f w)) ws || mem x l.
Proof.
  revert l. induction ws as [|w ws IH]; intros l; simpl; [reflexivity|].
  rewrite IH, mem_set_add. destruct (String.eqb x (f w)), (mem x l),
    (existsb (fun w0 => String.eqb x (f w0)) ws); reflexivity.
Qed.

Lemma mem_set_union (x : string) (a b : list string) :
  mem x (set_union a b) = mem x a || mem x b.
Proof.
  unfold set_union. rewrite (mem_fold_set_add (fun w => w)).
  unfold mem. rewrite orb_comm. reflexivity.
Qed.

Lemma mem_set_discard (x y : string) (l : list string) :
  mem x (set_discard y l) = negb (String.eqb y x) && mem x l.
Proof.
  unfold set_discard, mem. induction l as [|z l IH]; simpl.
  - now rewrite andb_false_r.
  - rewrite andb_orb_distrib_r, <- IH.
    destruct (String.eqb_spec y z) as [<-|Hyz]; simpl.
    + destruct (String.eqb_spec x y) as [->|]; simpl.
      * now rewrite String.eqb_refl.
      * now rewrite andb_false_r.
    + destruct (String.eqb_spec x z) as [->|]; simpl.
      * destruct (String.eqb_spec y z); [congruence|reflexivity].
      * now rewrite andb_false_r.
Qed.

Lemma mem_fold_discard (f : string -> string) (x : string) (ws l : list string) :
  mem x (fold_left (fun acc w => set_discard (f w) acc) ws l)
  = negb (existsb (fun w => String.eqb (f w) x) ws) && mem x l.
Proof.
  revert l. induction ws as [|w ws IH]; intros l; simpl; [reflexivity|].
  rewrite IH, mem_set_discard. destruct (String.eqb (f w) x), (mem x l),
    (existsb (fun w0 => String.eqb (f w0) x) ws); reflexivity.
Qed.

Lemma mem_In (x : string) (l : list string) : mem x l = true <-> In x l.
Proof.
  unfold mem. rewrite existsb_exists. split.
  - intros [y [Hy Hxy]]. apply String.eqb_eq in Hxy. now subst.
  - intros Hx. exists x. split; [exact Hx | apply String.eqb_refl].
Qed.

Lemma existsb_In_eqb {A} (f : A -> string) (x : string) (ws : list A) (y : A) :
  In y ws -> f y = x -> existsb (fun w => String.eqb x (f w)) ws = true.
Proof.
  intros Hy Hf. apply existsb_exists. exists y. split; [exact Hy|].
  rewrite Hf. apply String.eqb_refl.
Qed.

(** ** The heap *)

Lemma heap_get_set_same (r : nat) (o o' : obj) (h : list (nat * obj)) :
  heap_get r h = Some o' -> heap_get r (heap_set r o h) = Some o.
Proof.
  induction h as [|[r' o0] h IH]; simpl; [discriminate|].
  destruct (Nat.eqb_spec r r') as [->|]; simpl.
  - now rewrite Nat.eqb_refl.
  - destruct (Nat.eqb_spec r r'); [congruence|]. exact IH.
Qed.

Lemma heap_get_set_other (r r' : nat) (o : obj) (h : list (nat * obj)) :
  r' <> r -> heap_get r' (heap_set r o h) = heap_get r' h.
Proof.
  intros Hne. induction h as [|[r0 o0] h IH]; simpl; [reflexivity|].
  destruct (Nat.eqb_spec r r0) as [->|]; simpl.
  - destruct (Nat.eqb_spec r' r0); [congruence|reflexivity].
  - destruct (Nat.eqb r' r0); [reflexivity|exact IH].
Qed.

(** [_save] writes the JSON store only. *)
Lemma save_heap (r : nat) (w : world) : heap (snd (save r w)) = heap w.
Proof.
  unfold save, bind, get_store.
  destruct (heap_get r (heap w)) as [[st| | |]|]; simpl; try reflexivity.
  destruct (lookup (storage_path st) (json_files w)) as [[[]|]|]; reflexivity.
Qed.

(** The in-memory part of [add] and [remove] happens before [_save], so it
    stays even when [_save] raises. *)
Lemma update_then_save_heap (r : nat) (st : custom_stopwords) (c : list string) (w : world) :
  heap_get r (heap w) = Some (OStore st) ->
  heap_get r (heap (snd ((_ <- put_obj r (OStore (with_custom st c)) ;; save r) w)))
  = Some (OStore (with_custom st c)).
Proof.
  intros H. unfold bind at 1, put_obj. simpl. rewrite save_heap. simpl.
  eapply heap_get_set_same; exact H.
Qed.

Lemma get_all_mem (st : custom_stopwords) (x : string) :
  mem x (get_all st) = mem x (base_stopwords st) || mem x (custom_stopwords_set st).
Proof. unfold get_all. apply mem_set_union. Qed.

(** ** C1, C2: [add] and [remove] against [is_stopword] *)

(** C1. After [add] of a word [x] (alone or in a list), whether or not the
    following [_save] succeeds, the store answers [is_stopword y = true]
    for every [y] that lowercases like [x], i.e. for [x] in any casing. *)
Theorem add_makes_stopword (r : nat) (st : custom_stopwords) (words : words_arg)
    (x : string) (w : world) :
  heap_get r (heap w) = Some (OStore st) ->
  In x (arg_list words) ->
  exists st', heap_get r (heap (snd (add r words w))) = Some (OStore st') /\
              forall y, lower y = lower x -> is_stopword st' y = true.
Proof.
  intros Hst Hx. unfold add. unfold bind at 1. unfold get_store at 1.
  rewrite Hst.
  eexists. split; [apply update_then_save_heap; exact Hst|].
  intros y Hy. unfold is_stopword. rewrite get_all_mem. simpl.
  rewrite (mem_fold_set_add lower).
  rewrite (existsb_In_eqb lower (lower y) (arg_list words) x Hx (eq_sym Hy)).
  now rewrite orb_true_r.
Qed.

(** C2. After [remove] of a word [x] (alone or in a list), whether or not
    the following [_save] succeeds, [is_stopword x] holds exactly when
    [x.lower()] is a base stopword; the same holds for [x] in any casing,
    and a word that was never a custom stopword is no error. *)
Theorem remove_leaves_base (r : nat) (st : custom_stopwords) (words : words_arg)
    (x : string) (w : world) :
  heap_get r (heap w) = Some (OStore st) ->
  In x (arg_list words) ->
  exists st', heap_get r (heap (snd (remove r words w))) = Some (OStore st') /\
              base_stopwords st' = base_stopwords st /\
              forall y, lower y = lower x ->
                is_stopword st' y = mem (lower x) (base_stopwords st).
Proof.
  intros Hst Hx. unfold remove. unfold bind at 1. unfold get_store at 1.
  rewrite Hst.
  eexists. split; [apply update_then_save_heap; exact Hst|].
  split; [reflexivity|].
  intros y Hy. unfold is_stopword. rewrite get_all_mem. simpl.
  rewrite (mem_fold_discard lower).
  assert (Hin : existsb (fun w0 => String.eqb (lower w0) (lower y)) (arg_list words) = true).
  { apply existsb_exists. exists x. split; [exact Hx|]. rewrite Hy. apply String.eqb_refl. }
  rewrite Hin, Hy. simpl. now rewrite orb_false_r.
Qed.

(** ** The JSON store: [_save] and [_load_custom_stopwords] *)

Lemma lookup_dict_set_same {A} (k : string) (v : A) (l : list (string * A)) :
  lookup k (dict_set k v l) = Some v.
Proof.
  induction l as [|[k' v'] l IH]; simpl.
  - now rewrite String.eqb_refl.
  - destruct (String.eqb_spec k k') as [->|]; simpl.
    + now rewrite String.eqb_refl.
    + destruct (String.eqb_spec k k'); [congruence|exact IH].
Qed.

Lemma lookup_dict_set_other {A} (k k' : string) (v : A) (l : list (string * A)) :
  k' <> k -> lookup k' (dict_set k v l) = lookup k' l.
Proof.
  intros Hne. induction l as [|[k0 v0] l IH]; simpl.
  - destruct (String.eqb_spec k' k); [congruence|reflexivity].
  - destruct (String.eqb_spec k k0) as [->|]; simpl.
    + destruct (String.eqb_spec k' k0); [congruence|reflexivity].
    + destruct (String.eqb k' k0); [reflexivity|exact IH].
Qed.

Lemma insert_sorted_perm (x : string) (l : list string) :
  Permutation (insert_sorted x l) (x :: l).
Proof.
  induction l as [|y l IH]; simpl; [reflexivity|].
  destruct (String.leb x y); [reflexivity|].
  rewrite IH. apply perm_swap.
Qed.

Lemma py_sorted_perm (l : list string) : Permutation (py_sorted l) l.
Proof.
  induction l as [|x l IH]; simpl; [reflexivity|].
  rewrite insert_sorted_perm. now apply perm_skip.
Qed.

Lemma py_set_mem (x : string) (l : list string) : mem x (py_set l) = mem x l.
Proof.
  unfold py_set. rewrite (mem_fold_set_add (fun w => w)). simpl.
  now rewrite orb_false_r.
Qed.

Lemma py_set_In (x : string) (l : list string) : In x (py_set l) <-> In x l.
Proof. rewrite <- !mem_In. now rewrite py_set_mem. Qed.

Lemma py_set_of_json_strings (l : list string) :
  py_set_of_json (JArr (map JStr l)) = inl (py_set l).
Proof.
  unfold py_set_of_json.
  assert (H : fold_right (fun x acc => match x, acc with
                                       | JStr s, Some l => Some (s :: l)
                                       | _, _ => None end)
                (Some []) (map JStr l) = Some l).
  { induction l as [|s l IH]; simpl; [reflexivity|]. now rewrite IH. }
  now rewrite H.
Qed.

(** [_save] on a store whose file holds a JSON object. *)
Lemma save_ok (r : nat) (st : custom_stopwords) (w : world)
    (kvs : list (string * json)) :
  heap_get r (heap w) = Some (OStore st) ->
  lookup (storage_path st) (json_files w) = Some (JFile (JObj kvs)) ->
  save r w = (inl tt, set_json_files w
      (dict_set (storage_path st)
         (JFile (JObj (dict_set (language st)
            (JArr (map JStr (py_sorted (custom_stopwords_set st)))) kvs)))
         (json_files w))).
Proof.
  intros Hst Hf. unfold save, bind, get_store. rewrite Hst. now rewrite Hf.
Qed.

Lemma add_unfold (r : nat) (st : custom_stopwords) (words : words_arg) (w : world) :
  heap_get r (heap w) = Some (OStore st) ->
  add r words w
  = save r (set_heap w (heap_set r (OStore (with_custom st
      (fold_left (fun acc word => set_add (lower word) acc)
                 (arg_list words) (custom_stopwords_set st)))) (heap w))).
Proof. intros Hst. unfold add, bind at 1, get_store. now rewrite Hst. Qed.

Lemma remove_unfold (r : nat) (st : custom_stopwords) (words : words_arg) (w : world) :
  heap_get r (heap w) = Some (OStore st) ->
  remove r words w
  = save r (set_heap w (heap_set r (OStore (with_custom st
      (fold_left (fun acc word => set_discard (lower word) acc)
                 (arg_list words) (custom_stopwords_set st)))) (heap w))).
Proof. intros Hst. unfold remove, bind at 1, get_store. now rewrite Hst. Qed.

Lemma heap_get_alloc (o : obj) (w : world) :
  heap_get (next_ref w) (heap (snd (alloc o w))) = Some o.
Proof. simpl. now rewrite Nat.eqb_refl. Qed.

(** ** C3: persistence round trip *)

(** C3. Right after a successful [_save] of a store, a new
    [CustomStopwords] built on the same storage path and language (whose
    base list the corpus provides) loads a custom set with exactly the
    same members: writing the sorted list and reading it back as a set
    loses and adds nothing. *)
Theorem save_reload_roundtrip (r : nat) (st : custom_stopwords) (w w1 : world)
    (base : list string) :
  heap_get r (heap w) = Some (OStore st) ->
  save r w = (inl tt, w1) ->
  lookup (language st) (corpus w) = Some base ->
  exists r2 st2 w2,
    new_custom_stopwords (language st) (storage_path st) w1 = (inl r2, w2) /\
    heap_get r2 (heap w2) = Some (OStore st2) /\
    forall x, In x (custom_stopwords_set st2) <-> In x (custom_stopwords_set st).
Proof.
  intros Hst Hsave Hbase.
  unfold save, bind at 1, get_store in Hsave. rewrite Hst in Hsave.
  destruct (lookup (storage_path st) (json_files w)) as [[[| | | | |kvs]|]|] eqn:Hf;
    try discriminate.
  injection Hsave as <-.
  unfold new_custom_stopwords, bind, ensure_storage, load_custom_stopwords,
    set_json_files.
  cbn [json_files corpus]. rewrite lookup_dict_set_same.
  cbn [json_files corpus]. rewrite !lookup_dict_set_same.
  rewrite py_set_of_json_strings, Hbase.
  do 3 eexists. split; [reflexivity|]. split.
  - apply heap_get_alloc.
  - intros x. simpl. rewrite py_set_In.
    split; apply Permutation_in; [|symmetry]; apply py_sorted_perm.
Qed.

(** ** C8: other languages survive a save *)

(** C8. When [add] or [remove] runs on a store whose file holds a JSON
    object, the file afterwards holds a JSON object in which every key
    other than the store's language maps to the same value as before. *)
Theorem save_preserves_other_languages (r : nat) (st : custom_stopwords)
    (words : words_arg) (w : world) (kvs : list (string * json)) :
  heap_get r (heap w) = Some (OStore st) ->
  lookup (storage_path st) (json_files w) = Some (JFile (JObj kvs)) ->
  (exists kvs', lookup (storage_path st) (json_files (snd (add r words w)))
                  = Some (JFile (JObj kvs')) /\
                forall K, K <> language st -> lookup K kvs' = lookup K kvs) /\
  (exists kvs', lookup (storage_path st) (json_files (snd (remove r words w)))
                  = Some (JFile (JObj kvs')) /\
                forall K, K <> language st -> lookup K kvs' = lookup K kvs).
Proof.
  intros Hst Hf. split.
  - rewrite (add_unfold r st words w Hst).
    erewrite save_ok; [| eapply heap_get_set_same; exact Hst | exact Hf].
    simpl. rewrite lookup_dict_set_same. eexists. split; [reflexivity|].
    intros K HK. now apply lookup_dict_set_other.
  - rewrite (remove_unfold r st words w Hst).
    erewrite save_ok; [| eapply heap_get_set_same; exact Hst | exact Hf].
    simpl. rewrite lookup_dict_set_same. eexists. split; [reflexivity|].
    intros K HK. now apply lookup_dict_set_other.
Qed.

(** ** [Counter] and [most_common] *)


Lemma cget_counter_add (x y : string) (c : list (string * nat)) :
  cget y (counter_add x c) = if String.eqb y x then S (cget y c) else cget y c.
Proof.
  induction c as [|[z n] c IH]; simpl.
  - destruct (String.eqb y x); reflexivity.
  - destruct (String.eqb_spec x z) as [->|Hxz]; simpl.
    + destruct (String.eqb y z); reflexivity.
    + rewrite IH. destruct (String.eqb_spec y z) as [->|]; [|reflexivity].
      destruct (String.eqb_spec z x); [congruence|reflexivity].
Qed.

Lemma keys_counter_add (x y : string) (c : list (string * nat)) :
  In y (map fst (counter_add x c)) <-> y = x \/ In y (map fst c).
Proof.
  induction c as [|[z n] c IH]; simpl.
  - intuition.
  - destruct (String.eqb_spec x z) as [->|]; simpl; [intuition|].
    rewrite IH. intuition.
Qed.

Lemma nodup_counter_add (x : string) (c : list (string * nat)) :
  NoDup (map fst c) -> NoDup (map fst (counter_add x c)).
Proof.
  induction c as [|[z n] c IH]; simpl; intros Hnd.
  - repeat constructor. intros [].
  - inversion Hnd as [|? ? Hz Hnd']; subst.
    destruct (String.eqb_spec x z) as [->|Hxz]; simpl; [exact Hnd|].
    constructor; [|now apply IH].
    rewrite keys_counter_add. intros [->|]; [congruence|contradiction].
Qed.

Lemma counter_fold_spec (xs : list string) (c : list (string * nat)) :
  NoDup (map fst c) ->
  let c' := fold_left (fun c x => counter_add x c) xs c in
  NoDup (map fst c') /\
  (forall y, cget y c' = cget y c + count_occ string_dec xs y) /\
  (forall y, In y (map fst c') <-> In y (map fst c) \/ In y xs).
Proof.
  revert c. induction xs as [|x xs IH]; intros c Hnd; simpl.
  - split; [exact Hnd|]. split; [intros; lia|]. intuition.
  - destruct (IH (counter_add x c) (nodup_counter_add x c Hnd))
      as [H1 [H2 H3]].
    split; [exact H1|]. split.
    + intros y. rewrite H2, cget_counter_add. simpl.
      destruct (string_dec x y) as [->|Hne].
      * rewrite String.eqb_refl. lia.
      * destruct (String.eqb_spec y x); [congruence|lia].
    + intros y. rewrite H3, keys_counter_add. intuition.
Qed.

Lemma counter_spec (xs : list string) :
  NoDup (map fst (counter xs)) /\
  (forall y, cget y (counter xs) = count_occ string_dec xs y) /\
  (forall y, In y (map fst (counter xs)) <-> In y xs).
Proof.
  destruct (counter_fold_spec xs [] (NoDup_nil _)) as [H1 [H2 H3]].
  split; [exact H1|]. split.
  - intros y. now rewrite H2.
  - intros y. rewrite H3. simpl. intuition.
Qed.

Lemma cget_In (y : string) (n : nat) (c : list (string * nat)) :
  NoDup (map fst c) -> In (y, n) c -> cget y c = n.
Proof.
  induction c as [|[z m] c IH]; simpl; intros Hnd Hin; [contradiction|].
  inversion Hnd as [|? ? Hz Hnd']; subst.
  destruct Hin as [Heq|Hin].
  - injection Heq as -> ->. now rewrite String.eqb_refl.
  - destruct (String.eqb_spec y z) as [->|]; [|now apply IH].
    exfalso. apply Hz. change z with (fst (z, n)). now apply in_map.
Qed.

Lemma In_keys (y : string) (c : list (string * nat)) :
  In y (map fst c) -> In (y, cget y c) c.
Proof.
  induction c as [|[z m] c IH]; simpl; [contradiction|].
  intros [->|Hin].
  - left. now rewrite String.eqb_refl.
  - destruct (String.eqb_spec y z) as [->|]; [now left|right; now apply IH].
Qed.


Lemma insert_by_count_perm (p : string * nat) (l : list (string * nat)) :
  Permutation (insert_by_count p l) (p :: l).
Proof.
  induction l as [|q l IH]; simpl; [reflexivity|].
  destruct (Nat.leb (snd q) (snd p)); [reflexivity|].
  rewrite IH. apply perm_swap.
Qed.

Lemma sort_by_count_perm (l : list (string * nat)) :
  Permutation (sort_by_count l) l.
Proof.
  induction l as [|p l IH]; simpl; [reflexivity|].
  rewrite insert_by_count_perm. now apply perm_skip.
Qed.

Lemma insert_by_count_hd (p q : string * nat) (l : list (string * nat)) :
  HdRel by_count_desc q l -> by_count_desc q p ->
  HdRel by_count_desc q (insert_by_count p l).
Proof.
  destruct l as [|q' l]; simpl; intros Hhd Hqp.
  - now constructor.
  - destruct (Nat.leb (snd q') (snd p)); constructor; [exact Hqp|].
    now inversion Hhd.
Qed.

Lemma insert_by_count_sorted (p : string * nat) (l : list (string * nat)) :
  Sorted by_count_desc l -> Sorted by_count_desc (insert_by_count p l).
Proof.
  induction l as [|q l IH]; simpl; intros Hs.
  - repeat constructor.
  - inversion Hs as [|? ? Hs' Hhd]; subst.
    destruct (Nat.leb_spec (snd q) (snd p)) as [Hle|Hgt].
    + constructor; [exact Hs|]. constructor. exact Hle.
    + constructor; [now apply IH|].
      apply insert_by_count_hd; [exact Hhd|]. unfold by_count_desc. lia.
Qed.

Lemma sort_by_count_sorted (l : list (string * nat)) :
  StronglySorted by_count_desc (sort_by_count l).
Proof.
  apply Sorted_StronglySorted.
  - intros a b c. unfold by_count_desc. lia.
  - induction l as [|p l IH]; simpl; [constructor|].
    now apply insert_by_count_sorted.
Qed.

Lemma strongly_sorted_app {A} (R : A -> A -> Prop) (l1 l2 : list A) (a b : A) :
  StronglySorted R (l1 ++ l2) -> In a l1 -> In b l2 -> R a b.
Proof.
  induction l1 as [|x l1 IH]; simpl; intros Hs Ha Hb; [contradiction|].
  apply StronglySorted_inv in Hs as [Hs Hall].
  destruct Ha as [->|Ha].
  - rewrite Forall_forall in Hall. apply Hall, in_or_app. now right.
  - now apply IH.
Qed.

Lemma strongly_sorted_app_l {A} (R : A -> A -> Prop) (l1 l2 : list A) :
  StronglySorted R (l1 ++ l2) -> StronglySorted R l1.
Proof.
  induction l1 as [|x l1 IH]; simpl; intros Hs; [constructor|].
  apply StronglySorted_inv in Hs as [Hs Hall]. constructor; [now apply IH|].
  rewrite Forall_forall in *. intros y Hy. apply Hall, in_or_app. now left.
Qed.

(** ** C5: [get_word_frequency] *)

Lemma fs_lookup_files (path : string) (fe : file_entry) (w : world) :
  lookup path (files w) = Some fe -> fs_lookup path w = Some fe.
Proof. unfold fs_lookup. now intros ->. Qed.

Lemma get_word_frequency_eval (self s : nat) (st : custom_stopwords)
    (path text : string) (top_n : Z) (remove_sw : bool) (w : world) :
  heap_get self (heap w) = Some (OProcessor s) ->
  heap_get s (heap w) = Some (OStore st) ->
  lookup path (files w) = Some (Readable text) ->
  get_word_frequency self path top_n remove_sw w
  = (inl (most_common top_n (counter (preprocess text st remove_sw))), w).
Proof.
  intros Hp Hs Hf. apply fs_lookup_files in Hf.
  unfold get_word_frequency, tp_process_file, bind, get_processor_obj, get_store,
    read_file, ret.
  now rewrite Hp, Hs, Hf.
Qed.

(** C5. On a readable file, [get_word_frequency] returns the pairs
    [(word, count)] of the processed tokens with their exact counts, each
    word once, in descending count order, [min top_n (#distinct tokens)] of
    them, and no word left out counts more than one kept; on the text
    ["a a b b b c"] without stopword removal and [top_n = 2] the result is
    [[("b", 3); ("a", 2)]]. *)
Theorem word_frequency_top_n (self s : nat) (st : custom_stopwords)
    (path text : string) (top_n : Z) (remove_sw : bool) (w : world) :
  heap_get self (heap w) = Some (OProcessor s) ->
  heap_get s (heap w) = Some (OStore st) ->
  lookup path (files w) = Some (Readable text) ->
  let toks := preprocess text st remove_sw in
  exists l,
    get_word_frequency self path top_n remove_sw w = (inl l, w) /\
    (forall x n, In (x, n) l -> n = count_occ string_dec toks x /\ (0 < n)%nat) /\
    NoDup (map fst l) /\
    Sorted by_count_desc l /\
    length l = Nat.min (Z.to_nat top_n) (length (nodup string_dec toks)) /\
    (forall x y n, In x toks -> ~ In x (map fst l) -> In (y, n) l ->
                   (count_occ string_dec toks x <= n)%nat) /\
    (text = "a a b b b c" -> top_n = 2%Z -> remove_sw = false ->
     l = [("b", 3%nat); ("a", 2%nat)]).
Proof.
  intros Hp Hs Hf toks.
  rewrite (get_word_frequency_eval self s st path text top_n remove_sw w Hp Hs Hf).
  eexists. split; [reflexivity|].
  fold toks. unfold most_common.
  destruct (counter_spec toks) as [Hnd [Hget Hkeys]].
  set (c := counter toks) in *.
  set (S := sort_by_count c).
  set (k := Z.to_nat top_n).
  assert (Hperm : Permutation S c) by apply sort_by_count_perm.
  assert (Hsplit : (firstn k S ++ skipn k S)%list = S) by apply firstn_skipn.
  assert (HsS : StronglySorted by_count_desc S) by apply sort_by_count_sorted.
  assert (HinS : forall p, In p (firstn k S) -> In p c).
  { intros p Hp'. apply (Permutation_in _ Hperm). rewrite <- Hsplit.
    apply in_or_app. now left. }
  split; [|split; [|split; [|split; [|split]]]].
  - intros x n Hx. apply HinS in Hx.
    assert (Hn : cget x c = n) by (apply cget_In; assumption).
    rewrite <- Hn, Hget. split; [reflexivity|].
    apply (count_occ_In string_dec). apply Hkeys.
    change x with (fst (x, n)). now apply in_map.
  - rewrite <- firstn_map. apply (NoDup_app_remove_r _ (skipn k (map fst S))).
    rewrite firstn_skipn.
    apply (Permutation_NoDup (l := map fst c)); [|exact Hnd].
    apply Permutation_map. now symmetry.
  - apply StronglySorted_Sorted. apply (strongly_sorted_app_l _ _ (skipn k S)).
    now rewrite Hsplit.
  - rewrite length_firstn. f_equal.
    rewrite (Permutation_length Hperm), <- (length_map fst c).
    apply Permutation_length, NoDup_Permutation; [exact Hnd | apply NoDup_nodup|].
    intros y. rewrite nodup_In. apply Hkeys.
  - intros x y n Hx Hnot Hyn.
    assert (Hxc : In (x, cget x c) c) by (apply In_keys, Hkeys, Hx).
    apply (Permutation_in _ (Permutation_sym Hperm)) in Hxc.
    rewrite <- Hsplit in Hxc. apply in_app_or in Hxc as [Hxc|Hxc].
    + exfalso. apply Hnot. change x with (fst (x, cget x c)). now apply in_map.
    + rewrite <- Hget.
      apply (strongly_sorted_app by_count_desc (firstn k S) (skipn k S)
               (y, n) (x, cget x c)); [now rewrite Hsplit | exact Hyn | exact Hxc].
  - intros -> -> ->. reflexivity.
Qed.

(** ** Stepping through the monad *)

Lemma bind_inl {A B} (m : M A) (k : A -> M B) (w w' : world) (b : B) :
  bind m k w = (inl b, w') ->
  exists a w1, m w = (inl a, w1) /\ k a w1 = (inl b, w').
Proof.
  unfold bind. destruct (m w) as [[a|e] w1]; intros H; [|discriminate].
  now exists a, w1.
Qed.

Ltac step H :=
  let a := fresh "a" in let w := fresh "w" in
  let H1 := fresh "Hm" in let H2 := fresh "Hk" in
  apply bind_inl in H; destruct H as (a & w & H1 & H2).

Ltac stepn H a w H1 H2 := apply bind_inl in H; destruct H as (a & w & H1 & H2).

Lemma get_pipeline_inl (r : nat) (p : pipeline) (w w1 : world) :
  get_pipeline r w = (inl p, w1) -> w1 = w /\ heap_get r (heap w) = Some (OPipeline p).
Proof.
  unfold get_pipeline. destruct (heap_get r (heap w)) as [[| | |p0]|]; intros H;
    try discriminate. injection H as -> ->. now split.
Qed.

Lemma get_store_inl (r : nat) (st : custom_stopwords) (w w1 : world) :
  get_store r w = (inl st, w1) -> w1 = w /\ heap_get r (heap w) = Some (OStore st).
Proof.
  unfold get_store. destruct (heap_get r (heap w)) as [[st0| | |]|]; intros H;
    try discriminate. injection H as -> ->. now split.
Qed.

Lemma get_processor_obj_inl (r s : nat) (w w1 : world) :
  get_processor_obj r w = (inl s, w1) -> w1 = w /\ heap_get r (heap w) = Some (OProcessor s).
Proof.
  unfold get_processor_obj. destruct (heap_get r (heap w)) as [[|s0| |]|]; intros H;
    try discriminate. injection H as -> ->. now split.
Qed.

Lemma get_dict_inl (r : nat) (d : pydict) (w w1 : world) :
  get_dict r w = (inl d, w1) -> w1 = w /\ heap_get r (heap w) = Some (ODict d).
Proof.
  unfold get_dict. destruct (heap_get r (heap w)) as [[| |d0|]|]; intros H;
    try discriminate. injection H as -> ->. now split.
Qed.

Lemma alloc_inl (o : obj) (r : nat) (w w1 : world) :
  alloc o w = (inl r, w1) ->
  r = next_ref w /\ w1 = mkWorld (files w) (json_files w) (corpus w)
                           ((next_ref w, o) :: heap w) (S (next_ref w)).
Proof. unfold alloc. intros H. injection H as <- <-. now split. Qed.

Lemma put_obj_inl (r : nat) (o : obj) (u : unit) (w w1 : world) :
  put_obj r o w = (inl u, w1) -> w1 = set_heap w (heap_set r o (heap w)).
Proof. unfold put_obj. intros H. now injection H as _ <-. Qed.

Lemma ret_inl {A} (a b : A) (w w1 : world) : ret a w = (inl b, w1) -> b = a /\ w1 = w.
Proof. unfold ret. intros H. now injection H as <- <-. Qed.

(** What a successful [process_text] leaves behind: its dict at the
    returned reference, appended last to the pipeline's results. *)
Lemma process_text_inl (self : nat) (text : string) (doc : option string)
    (gf : bool) (n : Z) (w w' : world) (r : nat) :
  process_text self text doc gf n w = (inl r, w') ->
  exists dt st p',
    heap_get r (heap w') = Some (ODict (text_result dt text st gf n)) /\
    heap_get self (heap w') = Some (OPipeline p') /\
    exists pre, results p' = (pre ++ [r])%list.
Proof.
  unfold process_text. intros H.
  step H. apply get_pipeline_inl in Hm as [-> _].
  step Hk. step Hk0. apply get_processor_obj_inl in Hm0 as [-> _].
  step Hk. apply get_store_inl in Hm0 as [-> _].
  step Hk0. apply alloc_inl in Hm0 as [-> ->].
  step Hk. apply get_pipeline_inl in Hm0 as [-> Hself].
  step Hk0. apply put_obj_inl in Hm0 as ->.
  apply ret_inl in Hk as [-> ->].
  cbn [heap set_heap] in *.
  match goal with |- context [heap_get (next_ref ?W) _] =>
    assert (Hne : self <> next_ref W)
      by (intros ->; simpl in Hself; now rewrite Nat.eqb_refl in Hself)
  end.
  do 3 eexists. split; [|split].
  - rewrite heap_get_set_other by congruence. simpl. now rewrite Nat.eqb_refl.
  - eapply heap_get_set_same; exact Hself.
  - eexists. reflexivity.
Qed.

(** ** C6: the reduction percentage *)

Lemma split_ws_aux_nil (s cur : string) :
  split_ws_aux s cur = [] <-> cur = EmptyString /\ all_space s = true.
Proof.
  revert cur. induction s as [|c s IH]; intros cur; simpl.
  - destruct cur as [|a cur]; simpl.
    + easy.
    + split; intros H; [discriminate | destruct H as [H _]; discriminate].
  - destruct (is_space c) eqn:Hc; simpl.
    + destruct cur as [|a cur]; simpl.
      * rewrite IH. intuition.
      * split; intros H; [discriminate | destruct H as [H _]; discriminate].
    + rewrite IH. split; intros [H1 H2]; [destruct cur; discriminate | discriminate].
Qed.

Lemma py_split_nil (s : string) : py_split s = [] <-> all_space s = true.
Proof. unfold py_split. rewrite split_ws_aux_nil. intuition. Qed.

Lemma text_result_lookup (k dt text : string) (st : custom_stopwords) (gf : bool)
    (n : Z) :
  k <> "top_words" ->
  lookup k (text_result dt text st gf n)
  = lookup k [("type", VStr dt);
              ("original_length", VInt (Z.of_nat (String.length text)));
              ("token_count", VInt (Z.of_nat (length (preprocess text st true))));
              ("unique_tokens", VInt (Z.of_nat (length (py_set (preprocess text st true)))));
              ("tokens", VList (map VStr (preprocess text st true)));
              ("reduction_percent", reduction_percent (preprocess text st true) text)].
Proof.
  intros Hk. unfold text_result. destruct gf; [|reflexivity].
  now apply lookup_dict_set_other.
Qed.

(** C6. The dict of a [process_text] call holds its filtered tokens, their
    number as ["token_count"], and as ["reduction_percent"] the integer 0
    when the text is empty or whitespace only, and otherwise
    [round((1 - token_count / len(text.split())) * 100, 2)] in binary64;
    in particular on [""] the token count and the reduction are 0. *)
Theorem process_text_reduction_percent (self : nat) (text : string)
    (doc : option string) (gf : bool) (n : Z) (w w' : world) (r : nat) :
  process_text self text doc gf n w = (inl r, w') ->
  exists d toks,
    heap_get r (heap w') = Some (ODict d) /\
    lookup "tokens" d = Some (VList (map VStr toks)) /\
    lookup "token_count" d = Some (VInt (Z.of_nat (length toks))) /\
    lookup "reduction_percent" d =
      Some (if all_space text then VInt 0
            else VFloat (py_round2
                   ((PrimFloat.one
                     - int_truediv (Z.of_nat (length toks))
                                   (Z.of_nat (length (py_split text))))
                    * float_of_Z 100)%float)) /\
    (text = "" -> toks = [] /\ lookup "token_count" d = Some (VInt 0)
                /\ lookup "reduction_percent" d = Some (VInt 0)).
Proof.
  intros H. apply process_text_inl in H as (dt & st & p' & Hr & _).
  exists (text_result dt text st gf n), (preprocess text st true).
  split; [exact Hr|].
  assert (Hred : reduction_percent (preprocess text st true) text
                 = if all_space text then VInt 0
                   else VFloat (py_round2
                     ((PrimFloat.one
                       - int_truediv (Z.of_nat (length (preprocess text st true)))
                                     (Z.of_nat (length (py_split text))))
                      * float_of_Z 100)%float)).
  { unfold reduction_percent.
    destruct (all_space text) eqn:Hsp.
    - apply py_split_nil in Hsp. now rewrite Hsp.
    - destruct (py_split text) eqn:Hs; [|reflexivity].
      apply py_split_nil in Hs. congruence. }
  rewrite !text_result_lookup by discriminate. rewrite Hred.
  split; [reflexivity|]. split; [reflexivity|]. split; [reflexivity|].
  intros ->. split; [reflexivity|]. split; reflexivity.
Qed.

(** ** C10: the logged dict is the annotated one *)

(** C10. When [process_file] returns a dict without an ["error"] entry, that
    dict carries ["file"] set to the path, and it is the very object the
    pipeline's [results] list ends with: [process_text] appended it and
    [process_file] then wrote the path into it. *)
Theorem process_file_annotates_logged_result (self : nat) (path : string)
    (doc : option string) (gf : bool) (n : Z) (w w' : world) (r : nat) (d : pydict) :
  process_file self path doc gf n w = (inl r, w') ->
  heap_get r (heap w') = Some (ODict d) ->
  lookup "error" d = None ->
  lookup "file" d = Some (VStr path) /\
  exists p pre, heap_get self (heap w') = Some (OPipeline p) /\
                results p = (pre ++ [r])%list.
Proof.
  unfold process_file. intros H Hd Herr.
  stepn H p w0 Hp H1. apply get_pipeline_inl in Hp as [-> _].
  stepn H1 u w1 Hg H2.
  unfold try_except in H2.
  match type of H2 with
  | (match ?B ?W with _ => _ end) = _ => destruct (B W) as [[r0|e] w2] eqn:Hb
  end.
  - injection H2 as -> ->.
    stepn Hb text w3 Hread H3. stepn H3 r1 w4 Hpt H4.
    apply process_text_inl in Hpt as (dt & st & p' & Hr & Hself & Hres).
    stepn H4 d0 w5 Hgd H5. apply get_dict_inl in Hgd as [-> Hr'].
    stepn H5 u2 w6 Hput H6. apply put_obj_inl in Hput as ->.
    apply ret_inl in H6 as [-> ->].
    cbn [heap set_heap] in Hd |- *.
    assert (Hne : self <> r1) by congruence.
    rewrite (heap_get_set_same r1 _ _ _ Hr') in Hd. injection Hd as <-.
    split; [apply lookup_dict_set_same|].
    destruct Hres as [pre Hres]. exists p', pre. split; [|exact Hres].
    rewrite heap_get_set_other by exact Hne. exact Hself.
  - destruct e; apply alloc_inl in H2 as [-> ->]; simpl in Hd;
      rewrite Nat.eqb_refl in Hd; injection Hd as <-; discriminate.
Qed.

(** ** Frame of the factories *)

Lemma wf_get (w : world) (r : nat) (o : obj) :
  wf w = true -> heap_get r (heap w) = Some o -> (r < next_ref w)%nat.
Proof.
  unfold wf. induction (heap w) as [|[r' o'] h IH]; simpl; [discriminate|].
  intros Hf Hg. apply andb_prop in Hf as [H1 H2].
  destruct (Nat.eqb_spec r r') as [->|]; [now apply Nat.ltb_lt|auto].
Qed.

Lemma wf_none (w : world) (r : nat) :
  wf w = true -> (next_ref w <= r)%nat -> heap_get r (heap w) = None.
Proof.
  intros Hw Hr. destruct (heap_get r (heap w)) eqn:Hg; [|reflexivity].
  apply wf_get in Hg; [lia|exact Hw].
Qed.

Lemma forallb_lt_mono (h : list (nat * obj)) (n m : nat) :
  (n <= m)%nat ->
  forallb (fun ro => Nat.ltb (fst ro) n) h = true ->
  forallb (fun ro => Nat.ltb (fst ro) m) h = true.
Proof.
  intros Hnm. rewrite !forallb_forall. intros H x Hx.
  specialize (H x Hx). apply Nat.ltb_lt in H. apply Nat.ltb_lt. lia.
Qed.

Lemma wf_json (w : world) (j : list (string * json_file)) :
  wf (set_json_files w j) = wf w.
Proof. reflexivity. Qed.

Lemma wf_put (w : world) (r : nat) (o : obj) :
  wf (set_heap w (heap_set r o (heap w))) = wf w.
Proof.
  unfold wf, set_heap. cbn [heap next_ref].
  induction (heap w) as [|[r' o'] h IH]; simpl; [reflexivity|].
  destruct (Nat.eqb r r'); simpl; now rewrite ?IH.
Qed.

Lemma wf_alloc (w : world) (o : obj) :
  wf w = true ->
  wf (mkWorld (files w) (json_files w) (corpus w)
              ((next_ref w, o) :: heap w) (S (next_ref w))) = true.
Proof.
  unfold wf. cbn [heap next_ref forallb fst]. intros H.
  apply andb_true_intro. split; [apply Nat.ltb_lt; lia|].
  eapply forallb_lt_mono; [|exact H]. lia.
Qed.

Lemma grows_refl (w : world) : grows w w.
Proof. repeat split; auto. Qed.

Lemma grows_trans (w0 w1 w2 : world) : grows w0 w1 -> grows w1 w2 -> grows w0 w2.
Proof.
  intros (H1 & H2 & H3) (H4 & H5 & H6). repeat split; [lia|congruence|].
  intros r Hr. rewrite H6 by lia. now apply H3.
Qed.

Lemma grows_json (w0 w : world) (j : list (string * json_file)) :
  grows w0 w -> grows w0 (set_json_files w j).
Proof. intros H. exact H. Qed.

Lemma grows_alloc (w0 w : world) (o : obj) :
  grows w0 w ->
  grows w0 (mkWorld (files w) (json_files w) (corpus w)
                    ((next_ref w, o) :: heap w) (S (next_ref w))).
Proof.
  intros (H1 & H2 & H3). unfold grows. cbn [heap next_ref files].
  split; [lia|]. split; [exact H2|].
  intros r Hr. simpl. destruct (Nat.eqb_spec r (next_ref w)); [lia|auto].
Qed.

Lemma grows_put (w0 w : world) (r : nat) (o : obj) :
  grows w0 w -> (next_ref w0 <= r)%nat ->
  grows w0 (set_heap w (heap_set r o (heap w))).
Proof.
  intros (H1 & H2 & H3) Hr. repeat split; [exact H1|exact H2|].
  intros r' Hr'. cbn [set_heap heap]. rewrite heap_get_set_other by lia. auto.
Qed.

Lemma ensure_storage_inl (path : string) (u : unit) (w w1 : world) :
  ensure_storage path w = (inl u, w1) -> exists j, w1 = set_json_files w j.
Proof.
  unfold ensure_storage. destruct (lookup path (json_files w)); intros H.
  - injection H as _ <-. exists (json_files w). now destruct w.
  - injection H as _ <-. eexists. reflexivity.
Qed.

Lemma load_custom_stopwords_inl (lang path : string) (cb : list string * list string)
    (w w1 : world) :
  load_custom_stopwords lang path w = (inl cb, w1) -> w1 = w.
Proof.
  unfold load_custom_stopwords.
  repeat match goal with
         | |- context [match ?x with _ => _ end] => destruct x
         end; intros H; congruence.
Qed.

Lemma save_inl (r : nat) (u : unit) (w w1 : world) :
  save r w = (inl u, w1) -> exists j, w1 = set_json_files w j.
Proof.
  unfold save, bind, get_store. destruct (heap_get r (heap w)) as [[st| | |]|];
    try discriminate.
  repeat match goal with
         | |- context [match ?x with _ => _ end] => destruct x
         end; intros H; try discriminate; injection H as _ <-; eexists; reflexivity.
Qed.

Lemma add_inl (r : nat) (words : words_arg) (u : unit) (w w1 : world) :
  add r words w = (inl u, w1) ->
  exists o j, w1 = set_json_files (set_heap w (heap_set r o (heap w))) j.
Proof.
  unfold add. intros H. stepn H st wa Hst H1. apply get_store_inl in Hst as [-> _].
  stepn H1 u' wb Hput H2. apply put_obj_inl in Hput as ->.
  apply save_inl in H2 as [j ->]. eexists _, j. reflexivity.
Qed.

Lemma new_custom_stopwords_inl (lang path : string) (s : nat) (w w1 : world) :
  wf w = true -> new_custom_stopwords lang path w = (inl s, w1) ->
  s = next_ref w /\ grows w w1 /\ wf w1 = true.
Proof.
  unfold new_custom_stopwords. intros Hw H.
  stepn H u wa Hens H1. apply ensure_storage_inl in Hens as [j ->].
  stepn H1 cb wb Hload H2. apply load_custom_stopwords_inl in Hload as ->.
  apply alloc_inl in H2 as [-> ->]. split; [reflexivity|]. split.
  - apply grows_alloc, grows_json, grows_refl.
  - apply wf_alloc. now rewrite wf_json.
Qed.

Lemma technical_factory_inl (t : nat) (w w1 : world) :
  wf w = true -> create_technical_processor w = (inl t, w1) ->
  grows w w1 /\ wf w1 = true /\ (next_ref w <= t)%nat.
Proof.
  unfold create_technical_processor, new_text_processor. intros Hw H.
  stepn H s wa Hnew H1. apply new_custom_stopwords_inl in Hnew as (-> & Hg & Hwf);
    [|exact Hw].
  apply alloc_inl in H1 as [-> ->]. destruct Hg as (Hle & Hf & Hh) eqn:Hg'.
  split; [now apply grows_alloc|]. split; [now apply wf_alloc|exact Hle].
Qed.

(** The four factories that add a preset word list share one shape. *)
Lemma preset_factory_inl (terms : list string) (t : nat) (w w1 : world) :
  wf w = true ->
  (stopwords <- new_custom_stopwords "english" "custom_stopwords.json" ;;
   _ <- add stopwords (Words terms) ;;
   new_text_processor stopwords) w = (inl t, w1) ->
  grows w w1 /\ wf w1 = true /\ (next_ref w <= t)%nat.
Proof.
  unfold new_text_processor. intros Hw H.
  stepn H s wa Hnew H1. apply new_custom_stopwords_inl in Hnew as (-> & Hg & Hwf);
    [|exact Hw].
  stepn H1 u wb Hadd H2. apply add_inl in Hadd as (o & j & ->).
  apply alloc_inl in H2 as [-> ->].
  assert (Hg2 : grows w (set_json_files (set_heap wa (heap_set (next_ref w) o (heap wa))) j)).
  { apply grows_json, grows_put; [exact Hg|lia]. }
  split; [now apply grows_alloc|]. split.
  - apply wf_alloc. now rewrite wf_json, wf_put.
  - destruct Hg2 as [Hle _]. exact Hle.
Qed.

Lemma registry_get_processor_inl (doc : string) (t : nat) (w w1 : world) :
  wf w = true -> registry_get_processor doc w = (inl t, w1) ->
  grows w w1 /\ wf w1 = true /\ (next_ref w <= t)%nat.
Proof.
  unfold registry_get_processor. cbn [lookup registry].
  destruct (String.eqb doc "technical"); [apply technical_factory_inl|].
  destruct (String.eqb doc "web"); [apply (preset_factory_inl web_terms)|].
  destruct (String.eqb doc "business"); [apply (preset_factory_inl business_terms)|].
  destruct (String.eqb doc "academic"); [apply (preset_factory_inl academic_terms)|].
  destruct (String.eqb doc "news"); [apply (preset_factory_inl news_terms)|].
  intros _ H. discriminate H.
Qed.

(** [NLPPipeline.get_processor] keeps the pipeline's default type and
    result log, and the text files. *)
Lemma pipeline_get_processor_inl (self : nat) (dt : string) (t : nat) (w w1 : world) :
  wf w = true -> pipeline_get_processor self dt w = (inl t, w1) ->
  exists p p1,
    heap_get self (heap w) = Some (OPipeline p) /\
    heap_get self (heap w1) = Some (OPipeline p1) /\
    results p1 = results p /\ default_type p1 = default_type p /\
    wf w1 = true /\ files w1 = files w.
Proof.
  unfold pipeline_get_processor. intros Hw H.
  stepn H p wa Hp H1. apply get_pipeline_inl in Hp as [-> Hp].
  destruct (lookup dt (processors p)).
  - apply ret_inl in H1 as [_ ->]. exists p, p. repeat split; auto.
  - stepn H1 t0 wb Hreg H2.
    apply registry_get_processor_inl in Hreg as ((Hle & Hf & Hh) & Hwb & _); [|exact Hw].
    stepn H2 p' wc Hp' H3. apply get_pipeline_inl in Hp' as [-> Hp'].
    rewrite Hh in Hp' by (eapply wf_get; eauto). rewrite Hp in Hp'.
    injection Hp' as <-.
    stepn H3 u wd Hput H4. apply put_obj_inl in Hput as ->.
    apply ret_inl in H4 as [_ ->].
    eexists p, _. split; [exact Hp|]. split.
    + cbn [set_heap heap]. eapply heap_get_set_same. rewrite Hh; [exact Hp|].
      eapply wf_get; eauto.
    + cbn [results default_type]. split; [reflexivity|]. split; [reflexivity|].
      split; [now rewrite wf_put|exact Hf].
Qed.

Lemma bind_ok {A B} (m : M A) (k : A -> M B) (w w1 : world) (a : A) :
  m w = (inl a, w1) -> bind m k w = k a w1.
Proof. intros H. unfold bind. now rewrite H. Qed.

Lemma bind_err {A B} (m : M A) (k : A -> M B) (w w1 : world) (e : exn) :
  m w = (inr e, w1) -> bind m k w = (inr e, w1).
Proof. intros H. unfold bind. now rewrite H. Qed.

(** ** C7: a missing or unreadable file *)

(** C7 (amended). Provided the processor for the resolved document type
    is found ([NLPPipeline.get_processor] returns: the type is cached, or
    it is registered and its factory does not raise), [process_file] on a
    path that is absent or unreadable when [open] runs, that is in the
    state [get_processor] leaves (a factory may have created the stopword
    file), does not raise: it returns a new dict holding the path under
    ["file"] and a message under ["error"], and the pipeline's [results]
    list is the one it had before the call. *)
Theorem process_file_missing_gives_error_record (self : nat) (path : string)
    (doc : option string) (gf : bool) (n : Z) (p : pipeline) (t : nat) (w w1 : world) :
  wf w = true ->
  heap_get self (heap w) = Some (OPipeline p) ->
  pipeline_get_processor self (doc_type_or doc (default_type p)) w = (inl t, w1) ->
  (fs_lookup path w1 = None \/ exists m, fs_lookup path w1 = Some (Unreadable m)) ->
  exists r w' d p',
    process_file self path doc gf n w = (inl r, w') /\
    heap_get r (heap w') = Some (ODict d) /\
    lookup "file" d = Some (VStr path) /\
    (exists msg, lookup "error" d = Some (VStr msg)) /\
    heap_get self (heap w') = Some (OPipeline p') /\ results p' = results p.
Proof.
  intros Hw Hself Hpg Hmiss.
  destruct (pipeline_get_processor_inl _ _ _ _ _ Hw Hpg)
    as (p0 & p1 & Hp0 & Hp1 & Hres & _ & Hw1 & Hf).
  rewrite Hself in Hp0. injection Hp0 as <-.
  assert (Hlt : (self < next_ref w1)%nat) by (eapply wf_get; eauto).
  assert (Hgp : get_pipeline self w = (inl p, w)) by (unfold get_pipeline; now rewrite Hself).
  unfold process_file. rewrite (bind_ok _ _ _ _ _ Hgp). cbv beta.
  rewrite (bind_ok _ _ _ _ _ Hpg). cbv beta. unfold try_except.
  destruct Hmiss as [Hn | [m Hm]].
  - assert (Hr : read_file path w1
                 = (inr (FileNotFoundError ("No such file or directory: '" ++ path ++ "'")), w1))
      by (unfold read_file; now rewrite Hn).
    rewrite (bind_err _ _ _ _ _ Hr).
    eexists _, _, _, p1. split; [reflexivity|].
    cbn [heap heap_get]. rewrite Nat.eqb_refl.
    split; [reflexivity|]. split; [reflexivity|]. split; [eexists; reflexivity|].
    destruct (Nat.eqb_spec self (next_ref w1)); [lia|]. now split.
  - assert (Hr : read_file path w1 = (inr (OSError m), w1))
      by (unfold read_file; now rewrite Hm).
    rewrite (bind_err _ _ _ _ _ Hr).
    eexists _, _, _, p1. split; [reflexivity|].
    cbn [heap heap_get]. rewrite Nat.eqb_refl.
    split; [reflexivity|]. split; [reflexivity|]. split; [eexists; reflexivity|].
    destruct (Nat.eqb_spec self (next_ref w1)); [lia|]. now split.
Qed.

(** ** C9: every registry call builds a new processor *)

Section FactoryEval.

Variables (w : world) (kvs : list (string * json)) (old base : list string).
Hypothesis Hfile : lookup "custom_stopwords.json" (json_files w) = Some (JFile (JObj kvs)).
Hypothesis Hentry :
  match lookup "english" kvs with Some v => v | None => JArr [] end = JArr (map JStr old).
Hypothesis Hcorpus : lookup "english" (corpus w) = Some base.

Let n := next_ref w.
Let st0 := mkCustomStopwords "english" "custom_stopwords.json" (py_set old) (py_set base).

Lemma new_store_eval :
  new_custom_stopwords "english" "custom_stopwords.json" w
  = (inl n, mkWorld (files w) (json_files w) (corpus w) ((n, OStore st0) :: heap w) (S n)).
Proof.
  unfold new_custom_stopwords.
  assert (He : ensure_storage "custom_stopwords.json" w = (inl tt, w))
    by (unfold ensure_storage; now rewrite Hfile).
  rewrite (bind_ok _ _ _ _ _ He). cbv beta.
  assert (Hl : load_custom_stopwords "english" "custom_stopwords.json" w
               = (inl (py_set old, py_set base), w)).
  { unfold load_custom_stopwords. rewrite Hfile. cbv zeta.
    rewrite Hentry, py_set_of_json_strings, Hcorpus. reflexivity. }
  rewrite (bind_ok _ _ _ _ _ Hl). reflexivity.
Qed.

Lemma technical_eval :
  exists w1, create_technical_processor w = (inl (S n), w1) /\
    heap w1 = (S n, OProcessor n) :: (n, OStore st0) :: heap w /\
    next_ref w1 = S (S n) /\ files w1 = files w /\ corpus w1 = corpus w /\
    json_files w1 = json_files w.
Proof.
  eexists. split.
  - unfold create_technical_processor. rewrite (bind_ok _ _ _ _ _ new_store_eval).
    reflexivity.
  - repeat split.
Qed.

Lemma preset_factory_eval (terms : list string) :
  let c := fold_left (fun acc word => set_add (lower word) acc) terms (py_set old) in
  exists w1,
    (stopwords <- new_custom_stopwords "english" "custom_stopwords.json" ;;
     _ <- add stopwords (Words terms) ;;
     new_text_processor stopwords) w = (inl (S n), w1) /\
    heap w1 = (S n, OProcessor n)
              :: (n, OStore (mkCustomStopwords "english" "custom_stopwords.json" c
                                               (py_set base))) :: heap w /\
    next_ref w1 = S (S n) /\ files w1 = files w /\ corpus w1 = corpus w /\
    json_files w1 = dict_set "custom_stopwords.json"
                      (JFile (JObj (dict_set "english" (JArr (map JStr (py_sorted c))) kvs)))
                      (json_files w).
Proof.
  intros c. rewrite (bind_ok _ _ _ _ _ new_store_eval). cbv beta.
  set (W := mkWorld (files w) (json_files w) (corpus w) ((n, OStore st0) :: heap w) (S n)).
  assert (Hst : heap_get n (heap W) = Some (OStore st0))
    by (cbn [W heap heap_get]; now rewrite Nat.eqb_refl).
  assert (Hsave := save_ok n (with_custom st0 c)
                     (set_heap W (heap_set n (OStore (with_custom st0 c)) (heap W))) kvs
                     (heap_get_set_same _ _ _ _ Hst) Hfile).
  rewrite (bind_ok _ _ _ _ _ (eq_trans (add_unfold n st0 (Words terms) W Hst) Hsave)).
  eexists. split; [reflexivity|].
  cbn [W heap next_ref files corpus json_files set_heap set_json_files heap_set].
  rewrite Nat.eqb_refl. repeat split.
Qed.

End FactoryEval.

Lemma existsb_lower (x : string) (ts : list string) :
  existsb (fun w => String.eqb x (lower w)) ts = mem x (map lower ts).
Proof.
  unfold mem. induction ts as [|t ts IH]; simpl; [reflexivity|]. now rewrite IH.
Qed.

Lemma preset_terms_lower (doc : string) : map lower (preset_terms doc) = preset_terms doc.
Proof.
  unfold preset_terms.
  repeat match goal with
         | |- context [String.eqb ?a ?b] => destruct (String.eqb a b)
         end; reflexivity.
Qed.

Lemma preset_store_In (doc x : string) (old : list string) :
  In x (fold_left (fun acc word => set_add (lower word) acc) (preset_terms doc) (py_set old))
  <-> In x old \/ In x (preset_terms doc).
Proof.
  rewrite <- mem_In, mem_fold_set_add, existsb_lower, preset_terms_lower, py_set_mem,
    orb_true_iff, !mem_In. tauto.
Qed.

(** One call of [ProcessorRegistry.get_processor] on a registered label,
    with the stopword file holding a JSON object. *)
Lemma registry_step (doc : string) (w : world) (kvs : list (string * json))
    (old base : list string) :
  In doc (map fst registry) ->
  lookup "custom_stopwords.json" (json_files w) = Some (JFile (JObj kvs)) ->
  match lookup "english" kvs with Some v => v | None => JArr [] end = JArr (map JStr old) ->
  lookup "english" (corpus w) = Some base ->
  exists w1 c,
    registry_get_processor doc w = (inl (S (next_ref w)), w1) /\
    c = fold_left (fun acc word => set_add (lower word) acc) (preset_terms doc) (py_set old) /\
    heap w1 = (S (next_ref w), OProcessor (next_ref w))
              :: (next_ref w, OStore (mkCustomStopwords "english" "custom_stopwords.json" c
                                                       (py_set base))) :: heap w /\
    next_ref w1 = S (S (next_ref w)) /\ corpus w1 = corpus w /\
    json_files w1 = (if String.eqb doc "technical" then json_files w
                     else dict_set "custom_stopwords.json"
                            (JFile (JObj (dict_set "english" (JArr (map JStr (py_sorted c))) kvs)))
                            (json_files w)).
Proof.
  intros Hdoc Hf He Hc. simpl in Hdoc.
  destruct Hdoc as [<-|[<-|[<-|[<-|[<-|[]]]]]].
  - destruct (technical_eval w kvs old base Hf He Hc) as (w1 & H1 & H2 & H3 & _ & H5 & H6).
    exists w1, (py_set old). split; [exact H1|]. split; [reflexivity|]. auto.
  - destruct (preset_factory_eval w kvs old base Hf He Hc web_terms)
      as (w1 & H1 & H2 & H3 & _ & H5 & H6).
    eexists w1, _. split; [exact H1|]. split; [reflexivity|]. auto.
  - destruct (preset_factory_eval w kvs old base Hf He Hc business_terms)
      as (w1 & H1 & H2 & H3 & _ & H5 & H6).
    eexists w1, _. split; [exact H1|]. split; [reflexivity|]. auto.
  - destruct (preset_factory_eval w kvs old base Hf He Hc academic_terms)
      as (w1 & H1 & H2 & H3 & _ & H5 & H6).
    eexists w1, _. split; [exact H1|]. split; [reflexivity|]. auto.
  - destruct (preset_factory_eval w kvs old base Hf He Hc news_terms)
      as (w1 & H1 & H2 & H3 & _ & H5 & H6).
    eexists w1, _. split; [exact H1|]. split; [reflexivity|]. auto.
Qed.

(** C9. With the stopword file holding a JSON object whose ["english"]
    entry (or the default [[]]) lists strings [old], and NLTK's English
    list [base] available: a call of [get_processor] on a registered label
    returns a processor [t] that did not exist before, over a new store
    whose custom set is [old] plus the label's preset terms; objects that
    existed are untouched; a second call returns another processor.  The
    technical label leaves the file as it was; the other labels rewrite it,
    setting ["english"] to a list whose members are [old] and the preset
    terms and keeping every other key. *)
Theorem registry_get_processor_fresh (doc : string) (w : world)
    (kvs : list (string * json)) (old base : list string) :
  In doc (map fst registry) -> wf w = true ->
  lookup "custom_stopwords.json" (json_files w) = Some (JFile (JObj kvs)) ->
  match lookup "english" kvs with Some v => v | None => JArr [] end = JArr (map JStr old) ->
  lookup "english" (corpus w) = Some base ->
  exists t s st w1 t2 w2,
    registry_get_processor doc w = (inl t, w1) /\
    heap_get t (heap w) = None /\
    heap_get t (heap w1) = Some (OProcessor s) /\
    heap_get s (heap w1) = Some (OStore st) /\
    (forall x, In x (custom_stopwords_set st) <-> In x old \/ In x (preset_terms doc)) /\
    (forall r o, heap_get r (heap w) = Some o -> heap_get r (heap w1) = Some o) /\
    registry_get_processor doc w1 = (inl t2, w2) /\ t2 <> t /\
    (doc = "technical" -> json_files w1 = json_files w) /\
    (doc <> "technical" ->
       exists l, lookup "custom_stopwords.json" (json_files w1)
                 = Some (JFile (JObj (dict_set "english" (JArr (map JStr l)) kvs))) /\
               (forall x, In x l <-> In x old \/ In x (preset_terms doc))).
Proof.
  intros Hdoc Hw Hf He Hc.
  destruct (registry_step doc w kvs old base Hdoc Hf He Hc)
    as (w1 & c & H1 & Hcdef & Hh & Hn & Hcorp & Hj).
  assert (Hpre : exists kvs1 old1,
             lookup "custom_stopwords.json" (json_files w1) = Some (JFile (JObj kvs1)) /\
             match lookup "english" kvs1 with Some v => v | None => JArr [] end
             = JArr (map JStr old1)).
  { rewrite Hj. destruct (String.eqb doc "technical").
    - exists kvs, old. auto.
    - eexists _, (py_sorted c). rewrite lookup_dict_set_same. split; [reflexivity|].
      now rewrite lookup_dict_set_same. }
  destruct Hpre as (kvs1 & old1 & Hf1 & He1).
  assert (Hc1 : lookup "english" (corpus w1) = Some base) by now rewrite Hcorp.
  destruct (registry_step doc w1 kvs1 old1 base Hdoc Hf1 He1 Hc1) as (w2 & c2 & H2 & _).
  exists (S (next_ref w)), (next_ref w),
    (mkCustomStopwords "english" "custom_stopwords.json" c (py_set base)),
    w1, (S (next_ref w1)), w2.
  split; [exact H1|]. split; [apply wf_none; [exact Hw|lia]|].
  rewrite Hh. split; [simpl; now rewrite Nat.eqb_refl|].
  split; [simpl; destruct (Nat.eqb_spec (next_ref w) (S (next_ref w))); [lia|];
          now rewrite Nat.eqb_refl|].
  split; [intros x; cbn [custom_stopwords_set]; rewrite Hcdef; apply preset_store_In|].
  split.
  { intros r o Ho. pose proof (wf_get _ _ _ Hw Ho). simpl.
    destruct (Nat.eqb_spec r (S (next_ref w))); [lia|].
    destruct (Nat.eqb_spec r (next_ref w)); [lia|exact Ho]. }
  split; [exact H2|]. split; [rewrite Hn; lia|].
  split; [intros ->; exact Hj|].
  intros Hnt. apply String.eqb_neq in Hnt. rewrite Hnt in Hj.
  exists (py_sorted c). rewrite Hj. split; [apply lookup_dict_set_same|].
  intros x. rewrite <- (preset_store_In doc x old), <- Hcdef. split.
  - apply Permutation_in, py_sorted_perm.
  - apply Permutation_in, Permutation_sym, py_sorted_perm.
Qed.

(** ** C7: where the claim as stated fails *)

(** C7 as stated fails in two ways.  With an unregistered default
    document type, the processor lookup runs before the [try] block, so
    [process_file] on a missing path raises [ValueError] instead of
    returning an error record.  And a missing path is not always still
    missing when [open] runs: the first [process_file] of a fresh pipeline,
    with no stopword file yet, on the path ["custom_stopwords.json"] lets
    the factory create that file, reads it, and returns and logs a result
    dict with no ["error"] entry. *)
Lemma process_file_missing_not_error_record :
  (fs_lookup "missing.txt" (demo_world_with "bogus") = None /\
   exists msg w',
     process_file 2 "missing.txt" None false 5 (demo_world_with "bogus")
     = (inr (ValueError msg), w')) /\
  (fs_lookup "custom_stopwords.json" demo_world_fresh = None /\
   exists r w' d p',
     process_file 2 "custom_stopwords.json" None false 5 demo_world_fresh = (inl r, w') /\
     heap_get r (heap w') = Some (ODict d) /\
     lookup "file" d = Some (VStr "custom_stopwords.json") /\
     lookup "error" d = None /\
     heap_get 2 (heap w') = Some (OPipeline p') /\ results p' = [r]).
Proof.
  split.
  - split; [reflexivity|]. eexists _, _. vm_compute. reflexivity.
  - split; [reflexivity|]. eexists _, _, _, _.
    split; [vm_compute; reflexivity|]. split; [vm_compute; reflexivity|].
    split; [vm_compute; reflexivity|]. split; [vm_compute; reflexivity|].
    split; [vm_compute; reflexivity|]. reflexivity.
Qed.

(** * Instances of the theorems on the sample state *)

Lemma add_makes_stopword_witness :
  heap_get 0 (heap demo_world) = Some (OStore demo_store) /\
  In "Bar" (arg_list (OneWord "Bar")) /\
  exists st', heap_get 0 (heap (snd (add 0 (OneWord "Bar") demo_world))) = Some (OStore st') /\
              forall y, lower y = lower "Bar" -> is_stopword st' y = true.
Proof.
  split; [reflexivity|]. split; [left; reflexivity|].
  apply (add_makes_stopword 0 demo_store (OneWord "Bar") "Bar" demo_world);
    [reflexivity|left; reflexivity].
Defined.

Lemma remove_leaves_base_witness :
  heap_get 0 (heap demo_world) = Some (OStore demo_store) /\
  In "The" (arg_list (Words ["The"; "foo"])) /\
  exists st', heap_get 0 (heap (snd (remove 0 (Words ["The"; "foo"]) demo_world)))
                = Some (OStore st') /\
              base_stopwords st' = base_stopwords demo_store /\
              forall y, lower y = lower "The" ->
                is_stopword st' y = mem (lower "The") (base_stopwords demo_store).
Proof.
  split; [reflexivity|]. split; [left; reflexivity|].
  apply (remove_leaves_base 0 demo_store (Words ["The"; "foo"]) "The" demo_world);
    [reflexivity|left; reflexivity].
Defined.

Lemma save_reload_roundtrip_witness :
  heap_get 0 (heap demo_world) = Some (OStore demo_store) /\
  save 0 demo_world = (inl tt, snd (save 0 demo_world)) /\
  lookup (language demo_store) (corpus demo_world) = Some ["the"; "a"; "is"] /\
  exists r2 st2 w2,
    new_custom_stopwords (language demo_store) (storage_path demo_store)
      (snd (save 0 demo_world)) = (inl r2, w2) /\
    heap_get r2 (heap w2) = Some (OStore st2) /\
    forall x, In x (custom_stopwords_set st2) <-> In x (custom_stopwords_set demo_store).
Proof.
  split; [reflexivity|]. split; [vm_compute; reflexivity|]. split; [reflexivity|].
  apply (save_reload_roundtrip 0 demo_store demo_world (snd (save 0 demo_world))
           ["the"; "a"; "is"]); [reflexivity|vm_compute; reflexivity|reflexivity].
Defined.

Lemma save_preserves_other_languages_witness :
  heap_get 0 (heap demo_world) = Some (OStore demo_store) /\
  lookup (storage_path demo_store) (json_files demo_world) = Some (JFile (JObj demo_kvs)) /\
  (exists kvs', lookup (storage_path demo_store)
                  (json_files (snd (add 0 (Words ["Bar"]) demo_world)))
                  = Some (JFile (JObj kvs')) /\
                forall K, K <> language demo_store -> lookup K kvs' = lookup K demo_kvs) /\
  (exists kvs', lookup (storage_path demo_store)
                  (json_files (snd (remove 0 (Words ["Bar"]) demo_world)))
                  = Some (JFile (JObj kvs')) /\
                forall K, K <> language demo_store -> lookup K kvs' = lookup K demo_kvs).
Proof.
  split; [reflexivity|]. split; [reflexivity|].
  apply (save_preserves_other_languages 0 demo_store (Words ["Bar"]) demo_world demo_kvs);
    reflexivity.
Defined.

Lemma word_frequency_top_n_witness :
  heap_get 1 (heap demo_world) = Some (OProcessor 0) /\
  heap_get 0 (heap demo_world) = Some (OStore demo_store) /\
  lookup "notes.txt" (files demo_world) = Some (Readable "a a b b b c") /\
  let toks := preprocess "a a b b b c" demo_store false in
  exists l,
    get_word_frequency 1 "notes.txt" 2 false demo_world = (inl l, demo_world) /\
    (forall x n, In (x, n) l -> n = count_occ string_dec toks x /\ (0 < n)%nat) /\
    NoDup (map fst l) /\
    Sorted by_count_desc l /\
    length l = Nat.min (Z.to_nat 2) (length (nodup string_dec toks)) /\
    (forall x y n, In x toks -> ~ In x (map fst l) -> In (y, n) l ->
                   (count_occ string_dec toks x <= n)%nat) /\
    ("a a b b b c" = "a a b b b c" -> 2%Z = 2%Z -> false = false ->
     l = [("b", 3%nat); ("a", 2%nat)]).
Proof.
  split; [reflexivity|]. split; [reflexivity|]. split; [reflexivity|].
  exact (word_frequency_top_n 1 0 demo_store "notes.txt" "a a b b b c" 2 false demo_world
           eq_refl eq_refl eq_refl).
Defined.

Lemma process_text_reduction_percent_witness :
  process_text 2 "the cat sat" None false 5 demo_world
    = (inl 5, snd (process_text 2 "the cat sat" None false 5 demo_world)) /\
  exists d toks,
    heap_get 5 (heap (snd (process_text 2 "the cat sat" None false 5 demo_world)))
      = Some (ODict d) /\
    lookup "tokens" d = Some (VList (map VStr toks)) /\
    lookup "token_count" d = Some (VInt (Z.of_nat (length toks))) /\
    lookup "reduction_percent" d =
      Some (if all_space "the cat sat" then VInt 0
            else VFloat (py_round2
                   ((PrimFloat.one
                     - int_truediv (Z.of_nat (length toks))
                                   (Z.of_nat (length (py_split "the cat sat"))))
                    * float_of_Z 100)%float)) /\
    ("the cat sat" = "" -> toks = [] /\ lookup "token_count" d = Some (VInt 0)
                /\ lookup "reduction_percent" d = Some (VInt 0)).
Proof.
  split; [vm_compute; reflexivity|].
  apply (process_text_reduction_percent 2 "the cat sat" None false 5 demo_world
           (snd (process_text 2 "the cat sat" None false 5 demo_world)) 5).
  vm_compute. reflexivity.
Defined.

Lemma process_file_annotates_logged_result_witness :
  process_file 2 "notes.txt" None false 5 demo_world = (inl 5, snd demo_file_run) /\
  heap_get 5 (heap (snd demo_file_run)) = Some (ODict demo_file_dict) /\
  lookup "error" demo_file_dict = None /\
  lookup "file" demo_file_dict = Some (VStr "notes.txt") /\
  exists p pre, heap_get 2 (heap (snd demo_file_run)) = Some (OPipeline p) /\
                results p = (pre ++ [5])%list.
Proof.
  split; [vm_compute; reflexivity|]. split; [vm_compute; reflexivity|].
  split; [vm_compute; reflexivity|].
  apply (process_file_annotates_logged_result 2 "notes.txt" None false 5 demo_world
           (snd demo_file_run) 5 demo_file_dict); vm_compute; reflexivity.
Defined.

Lemma process_file_missing_gives_error_record_witness :
  wf demo_world = true /\
  heap_get 2 (heap demo_world) = Some (OPipeline (mkPipeline "technical" [] [])) /\
  pipeline_get_processor 2 (doc_type_or None "technical") demo_world
    = (inl 4, snd (pipeline_get_processor 2 "technical" demo_world)) /\
  fs_lookup "locked.txt" (snd (pipeline_get_processor 2 "technical" demo_world))
    = Some (Unreadable "Permission denied") /\
  exists r w' d p',
    process_file 2 "locked.txt" None true 5 demo_world = (inl r, w') /\
    heap_get r (heap w') = Some (ODict d) /\
    lookup "file" d = Some (VStr "locked.txt") /\
    (exists msg, lookup "error" d = Some (VStr msg)) /\
    heap_get 2 (heap w') = Some (OPipeline p') /\ results p' = [].
Proof.
  split; [reflexivity|]. split; [reflexivity|]. split; [vm_compute; reflexivity|].
  split; [vm_compute; reflexivity|].
  apply (process_file_missing_gives_error_record 2 "locked.txt" None true 5
           (mkPipeline "technical" [] []) 4 demo_world
           (snd (pipeline_get_processor 2 "technical" demo_world)));
    [reflexivity|reflexivity|vm_compute; reflexivity|right; eexists; vm_compute; reflexivity].
Defined.

Lemma registry_get_processor_fresh_witness :
  In "web" (map fst registry) /\ wf demo_world = true /\
  lookup "custom_stopwords.json" (json_files demo_world) = Some (JFile (JObj demo_kvs)) /\
  match lookup "english" demo_kvs with Some v => v | None => JArr [] end
    = JArr (map JStr ["foo"]) /\
  lookup "english" (corpus demo_world) = Some ["the"; "a"; "is"] /\
  exists t s st w1 t2 w2,
    registry_get_processor "web" demo_world = (inl t, w1) /\
    heap_get t (heap demo_world) = None /\
    heap_get t (heap w1) = Some (OProcessor s) /\
    heap_get s (heap w1) = Some (OStore st) /\
    (forall x, In x (custom_stopwords_set st) <-> In x ["foo"] \/ In x (preset_terms "web")) /\
    (forall r o, heap_get r (heap demo_world) = Some o -> heap_get r (heap w1) = Some o) /\
    registry_get_processor "web" w1 = (inl t2, w2) /\ t2 <> t /\
    ("web" = "technical" -> json_files w1 = json_files demo_world) /\
    ("web" <> "technical" ->
       exists l, lookup "custom_stopwords.json" (json_files w1)
                 = Some (JFile (JObj (dict_set "english" (JArr (map JStr l)) demo_kvs))) /\
               (forall x, In x l <-> In x ["foo"] \/ In x (preset_terms "web"))).
Proof.
  split; [right; left; reflexivity|]. split; [reflexivity|]. split; [reflexivity|].
  split; [reflexivity|]. split; [reflexivity|].
  apply (registry_get_processor_fresh "web" demo_world demo_kvs ["foo"] ["the"; "a"; "is"]);
    [right; left; reflexivity|reflexivity|reflexivity|reflexivity|reflexivity].
Defined.

(** * More of [TextProcessor] *)

Lemma NoDup_fold_set_add (f : string -> string) (ws l : list string) :
  NoDup l -> NoDup (fold_left (fun acc w => set_add (f w) acc) ws l).
Proof.
  revert l. induction ws as [|x ws IH]; intros l Hl; simpl; [exact Hl|].
  apply IH. unfold set_add. destruct (mem (f x) l) eqn:Hm; [exact Hl|].
  apply (Permutation_NoDup (Permutation_app_comm [f x] l)). simpl.
  constructor; [|exact Hl]. intros Hin. apply mem_In in Hin. congruence.
Qed.

Lemma py_set_nodup (l : list string) : NoDup (py_set l).
Proof. apply (NoDup_fold_set_add (fun w => w)). constructor. Qed.

Lemma length_py_set (l : list string) : length (py_set l) = length (nodup string_dec l).
Proof.
  apply Nat.le_antisymm; apply NoDup_incl_length.
  - apply py_set_nodup.
  - intros x Hx. apply nodup_In. now apply py_set_In.
  - apply NoDup_nodup.
  - intros x Hx. apply py_set_In. now apply nodup_In in Hx.
Qed.

Lemma length_nodup_le (l : list string) : (length (nodup string_dec l) <= length l)%nat.
Proof.
  apply NoDup_incl_length; [apply NoDup_nodup|]. intros x Hx. now apply nodup_In in Hx.
Qed.

Lemma tp_process_file_eval (self s : nat) (st : custom_stopwords) (path : string)
    (rm : bool) (w : world) :
  heap_get self (heap w) = Some (OProcessor s) ->
  heap_get s (heap w) = Some (OStore st) ->
  tp_process_file self path rm w =
    (match fs_lookup path w with
     | None => inr (FileNotFoundError ("File not found: " ++ path))
     | Some (Unreadable m) => inr (OSError m)
     | Some (Readable text) =>
         let toks := preprocess text st rm in
         inl (mkFileResult path text toks (length toks) (length (py_set toks)) rm)
     end, w).
Proof.
  intros H1 H2. unfold tp_process_file.
  assert (E1 : get_processor_obj self w = (inl s, w))
    by (unfold get_processor_obj; now rewrite H1).
  rewrite (bind_ok _ _ _ _ _ E1). cbv beta.
  assert (E2 : get_store s w = (inl st, w)) by (unfold get_store; now rewrite H2).
  rewrite (bind_ok _ _ _ _ _ E2). cbv beta.
  destruct (fs_lookup path w) as [[text|m]|] eqn:E; [| |reflexivity].
  - assert (E3 : read_file path w = (inl text, w)) by (unfold read_file; now rewrite E).
    now rewrite (bind_ok _ _ _ _ _ E3).
  - assert (E3 : read_file path w = (inr (OSError m), w)) by (unfold read_file; now rewrite E).
    now rewrite (bind_err _ _ _ _ _ E3).
Qed.

(** The record of [TextProcessor.process_file] on a readable file:
    ["token_count"] is the number of tokens and ["unique_tokens"] the
    number of distinct tokens, so never more than ["token_count"]. *)
Theorem tp_process_file_counts (self s : nat) (st : custom_stopwords) (path text : string)
    (rm : bool) (w : world) :
  heap_get self (heap w) = Some (OProcessor s) ->
  heap_get s (heap w) = Some (OStore st) ->
  lookup path (files w) = Some (Readable text) ->
  exists fr, tp_process_file self path rm w = (inl fr, w) /\
    fr_file fr = path /\ fr_original_text fr = text /\
    fr_tokens fr = preprocess text st rm /\
    fr_token_count fr = length (fr_tokens fr) /\
    fr_unique_tokens fr = length (nodup string_dec (fr_tokens fr)) /\
    (fr_unique_tokens fr <= fr_token_count fr)%nat /\
    fr_remove_stopwords fr = rm.
Proof.
  intros H1 H2 H3. apply fs_lookup_files in H3.
  rewrite (tp_process_file_eval _ _ _ _ _ _ H1 H2), H3.
  eexists. split; [reflexivity|]. cbn.
  rewrite length_py_set. repeat split. apply length_nodup_le.
Qed.

(** [TextProcessor.process_directory] never raises and changes nothing: it
    returns one entry per match, in the order of the matches, holding the
    record of [process_file] for a readable file and the pair of the path
    and [str(e)] otherwise, ["File not found: <path>"] for a path that no
    longer exists. *)
Theorem tp_process_directory_entries (self s : nat) (st : custom_stopwords)
    (matches : list string) (rm : bool) (w : world) :
  heap_get self (heap w) = Some (OProcessor s) ->
  heap_get s (heap w) = Some (OStore st) ->
  tp_process_directory self matches rm w =
    (inl (map (fun p =>
                 match fs_lookup p w with
                 | None => inr (p, "File not found: " ++ p)
                 | Some (Unreadable m) => inr (p, m)
                 | Some (Readable text) =>
                     let toks := preprocess text st rm in
                     inl (mkFileResult p text toks (length toks) (length (py_set toks)) rm)
                 end) matches), w).
Proof.
  intros H1 H2. unfold tp_process_directory.
  induction matches as [|p ps IH]; [reflexivity|].
  cbn [tp_process_paths].
  assert (E : try_except (r <- tp_process_file self p rm ;; ret (inl r))
                (fun e => ret (inr (p, exn_str e))) w
              = (inl (match fs_lookup p w with
                      | None => inr (p, "File not found: " ++ p)
                      | Some (Unreadable m) => inr (p, m)
                      | Some (Readable text) =>
                          let toks := preprocess text st rm in
                          inl (mkFileResult p text toks (length toks)
                                 (length (py_set toks)) rm)
                      end), w)).
  { unfold try_except, bind at 1. rewrite (tp_process_file_eval _ _ _ _ _ _ H1 H2).
    destruct (fs_lookup p w) as [[text|m]|]; reflexivity. }
  rewrite (bind_ok _ _ _ _ _ E). cbv beta. rewrite (bind_ok _ _ _ _ _ IH).
  reflexivity.
Qed.

Lemma lower_char_idem (c : ascii) : lower_char (lower_char c) = lower_char c.
Proof. destruct c as [[] [] [] [] [] [] [] []]; vm_compute; reflexivity. Qed.

Lemma lower_idem (s : string) : lower (lower s) = lower s.
Proof. induction s as [|c s IH]; simpl; [reflexivity|]. now rewrite lower_char_idem, IH. Qed.

Lemma add_custom_stopwords_heap (self s : nat) (st : custom_stopwords) (words : words_arg)
    (w : world) :
  heap_get self (heap w) = Some (OProcessor s) ->
  heap_get s (heap w) = Some (OStore st) ->
  heap (snd (add_custom_stopwords self words w))
  = heap_set s (OStore (with_custom st
      (fold_left (fun acc word => set_add (lower word) acc)
                 (arg_list words) (custom_stopwords_set st)))) (heap w).
Proof.
  intros H1 H2. unfold add_custom_stopwords.
  assert (E1 : get_processor_obj self w = (inl s, w))
    by (unfold get_processor_obj; now rewrite H1).
  rewrite (bind_ok _ _ _ _ _ E1). cbv beta.
  rewrite (add_unfold _ _ _ _ H2), save_heap. reflexivity.
Qed.

(** Words added through [TextProcessor.add_custom_stopwords], in any
    casing, never appear among the tokens of a later
    [process_file(path, remove_stopwords=True)] of the same processor; this
    holds also when the [_save] inside [add] raised. *)
Theorem added_words_filtered (self s : nat) (st : custom_stopwords) (words : words_arg)
    (path : string) (fr : file_result) (w w2 : world) :
  heap_get self (heap w) = Some (OProcessor s) ->
  heap_get s (heap w) = Some (OStore st) ->
  tp_process_file self path true (snd (add_custom_stopwords self words w)) = (inl fr, w2) ->
  forall x, In x (arg_list words) -> ~ In (lower x) (fr_tokens fr).
Proof.
  intros H1 H2 Htp x Hx Hin.
  assert (Hne : self <> s) by congruence.
  set (c := fold_left (fun acc word => set_add (lower word) acc)
                      (arg_list words) (custom_stopwords_set st)) in *.
  pose proof (add_custom_stopwords_heap _ _ _ words _ H1 H2) as Hh. fold c in Hh.
  set (w1 := snd (add_custom_stopwords self words w)) in *.
  assert (G1 : heap_get self (heap w1) = Some (OProcessor s))
    by (rewrite Hh, heap_get_set_other by exact Hne; exact H1).
  assert (G2 : heap_get s (heap w1) = Some (OStore (with_custom st c)))
    by (rewrite Hh; eapply heap_get_set_same; exact H2).
  rewrite (tp_process_file_eval _ _ _ _ _ _ G1 G2) in Htp.
  destruct (fs_lookup path w1) as [[text|m]|]; try discriminate.
  injection Htp as <- _. cbn [fr_tokens] in Hin. unfold preprocess in Hin.
  apply filter_In in Hin as [_ Hf]. apply negb_true_iff in Hf.
  unfold is_stopword in Hf. rewrite lower_idem, get_all_mem in Hf. simpl in Hf.
  unfold c in Hf. rewrite (mem_fold_set_add lower) in Hf.
  rewrite (existsb_In_eqb lower (lower x) (arg_list words) x Hx eq_refl) in Hf.
  rewrite !orb_true_r in Hf. discriminate.
Qed.

Lemma tp_process_file_counts_witness :
  exists fr, tp_process_file 1 "notes.txt" false demo_world = (inl fr, demo_world) /\
    fr_file fr = "notes.txt" /\ fr_original_text fr = "a a b b b c" /\
    fr_tokens fr = preprocess "a a b b b c" demo_store false /\
    fr_token_count fr = length (fr_tokens fr) /\
    fr_unique_tokens fr = length (nodup string_dec (fr_tokens fr)) /\
    (fr_unique_tokens fr <= fr_token_count fr)%nat /\
    fr_remove_stopwords fr = false.
Proof.
  apply (tp_process_file_counts 1 0 demo_store "notes.txt" "a a b b b c" false demo_world);
    reflexivity.
Defined.

Lemma tp_process_directory_entries_witness :
  tp_process_directory 1 ["notes.txt"; "locked.txt"; "nope"] true demo_world =
    (inl [inl (mkFileResult "notes.txt" "a a b b b c" ["b"; "b"; "b"; "c"] 4 2 true);
          inr ("locked.txt", "Permission denied");
          inr ("nope", "File not found: nope")], demo_world).
Proof.
  rewrite (tp_process_directory_entries 1 0 demo_store _ true demo_world eq_refl eq_refl).
  vm_compute. reflexivity.
Defined.

Lemma added_words_filtered_witness :
  tp_process_file 1 "notes.txt" true (snd (add_custom_stopwords 1 (Words ["B"]) demo_world))
    = (inl (mkFileResult "notes.txt" "a a b b b c" ["c"] 1 1 true),
       snd (add_custom_stopwords 1 (Words ["B"]) demo_world)) /\
  ~ In (lower "B") ["c"].
Proof.
  assert (Htp : tp_process_file 1 "notes.txt" true
                  (snd (add_custom_stopwords 1 (Words ["B"]) demo_world))
                = (inl (mkFileResult "notes.txt" "a a b b b c" ["c"] 1 1 true),
                   snd (add_custom_stopwords 1 (Words ["B"]) demo_world)))
    by (vm_compute; reflexivity).
  split; [exact Htp|].
  exact (added_words_filtered 1 0 demo_store (Words ["B"]) "notes.txt" _ demo_world _
           eq_refl eq_refl Htp "B" (or_introl eq_refl)).
Defined.

Lemma set_union_app (a b : list string) :
  NoDup b -> set_union a b = (a ++ filter (fun x => negb (mem x a)) b)%list.
Proof.
  unfold set_union. revert a. induction b as [|x b IH]; intros a Hnd.
  - cbn. now rewrite app_nil_r.
  - inversion Hnd as [|? ? Hx Hb]; subst. cbn [fold_left filter]. unfold set_add at 2.
    destruct (mem x a) eqn:Hm; cbn [negb].
    + now apply IH.
    + rewrite IH by exact Hb. rewrite <- app_assoc. cbn [app]. f_equal. f_equal.
      apply filter_ext_in. intros y Hy. rewrite mem_app. cbn.
      destruct (String.eqb y x) eqn:E.
      * apply String.eqb_eq in E. subst. contradiction.
      * now rewrite !orb_false_r.
Qed.

Lemma insert_sorted_hd (y x : string) (l : list string) :
  HdRel str_le y l -> str_le y x -> HdRel str_le y (insert_sorted x l).
Proof.
  intros Hh Hyx. destruct l as [|z l]; cbn; [now constructor|].
  destruct (String.leb x z); constructor; [exact Hyx|]. now inversion Hh.
Qed.

Lemma insert_sorted_sorted (x : string) (l : list string) :
  Sorted str_le l -> Sorted str_le (insert_sorted x l).
Proof.
  induction l as [|y l IH]; intros Hs; cbn; [now repeat constructor|].
  destruct (String.leb x y) eqn:E.
  - constructor; [exact Hs|]. now constructor.
  - inversion Hs as [|? ? Hl Hh]; subst. constructor; [now apply IH|].
    apply insert_sorted_hd; [exact Hh|]. unfold str_le.
    destruct (String.leb_total x y) as [H|H]; congruence.
Qed.

Lemma py_sorted_sorted (l : list string) : Sorted str_le (py_sorted l).
Proof.
  induction l as [|x l IH]; cbn; [constructor|]. now apply insert_sorted_sorted.
Qed.

Lemma sorted_le_strict (l : list string) : Sorted str_le l -> NoDup l -> Sorted str_lt l.
Proof.
  induction l as [|x l IH]; intros Hs Hnd; [constructor|].
  inversion Hs as [|? ? Hl Hh]; subst. inversion Hnd as [|? ? Hx Hnd']; subst.
  constructor; [now apply IH|].
  destruct l as [|y l]; constructor. inversion Hh as [|? ? Hxy]; subst.
  unfold str_le, str_lt, String.leb, String.ltb in *.
  destruct (String.compare x y) eqn:E; try discriminate; [|reflexivity].
  apply String.compare_eq_iff in E. subst. exfalso. apply Hx. now left.
Qed.

(** [TextProcessor.get_stopwords_stats] of a store whose custom set has no
    repeated word: ["total_stopwords"] counts the base words plus the
    custom words that are not base words, the two other counts are the
    sizes of the two sets, and ["custom_words_list"] lists the custom words,
    each once, in strictly increasing order. *)
Theorem stopwords_stats_values (self s : nat) (st : custom_stopwords) (w : world) :
  heap_get self (heap w) = Some (OProcessor s) ->
  heap_get s (heap w) = Some (OStore st) ->
  NoDup (custom_stopwords_set st) ->
  exists l,
    get_stopwords_stats self w =
      (inl [("total_stopwords", VInt (Z.of_nat (length (base_stopwords st)
              + length (filter (fun x => negb (mem x (base_stopwords st)))
                               (custom_stopwords_set st)))));
            ("base_stopwords", VInt (Z.of_nat (length (base_stopwords st))));
            ("custom_stopwords", VInt (Z.of_nat (length (custom_stopwords_set st))));
            ("custom_words_list", VList (map VStr l))], w) /\
    Sorted str_lt l /\ Permutation l (custom_stopwords_set st).
Proof.
  intros H1 H2 Hnd. exists (py_sorted (custom_stopwords_set st)).
  split; [|split].
  - unfold get_stopwords_stats.
    assert (E1 : get_processor_obj self w = (inl s, w))
      by (unfold get_processor_obj; now rewrite H1).
    rewrite (bind_ok _ _ _ _ _ E1). cbv beta.
    assert (E2 : get_store s w = (inl st, w)) by (unfold get_store; now rewrite H2).
    rewrite (bind_ok _ _ _ _ _ E2). unfold get_all.
    rewrite (set_union_app _ _ Hnd), length_app. reflexivity.
  - apply sorted_le_strict; [apply py_sorted_sorted|].
    apply (Permutation_NoDup (Permutation_sym (py_sorted_perm _))). exact Hnd.
  - apply py_sorted_perm.
Qed.

Lemma stopwords_stats_values_witness :
  exists l,
    get_stopwords_stats 1 demo_world =
      (inl [("total_stopwords", VInt (Z.of_nat (length ["the"; "a"; "is"]
              + length (filter (fun x => negb (mem x ["the"; "a"; "is"])) ["foo"]))));
            ("base_stopwords", VInt (Z.of_nat (length ["the"; "a"; "is"])));
            ("custom_stopwords", VInt (Z.of_nat (length ["foo"])));
            ("custom_words_list", VList (map VStr l))], demo_world) /\
    Sorted str_lt l /\ Permutation l ["foo"].
Proof.
  apply (stopwords_stats_values 1 0 demo_store demo_world eq_refl eq_refl).
  repeat constructor. intros [].
Defined.

(** * More of [CustomStopwords] *)

(** [CustomStopwords(language, storage_path)] when no file exists at
    [storage_path]: [_initialize_storage] writes [{}] there first, so the
    store starts with an empty custom set and the deduplicated base list of
    the language; when the corpus has no list for the language the
    constructor raises [LookupError], and the new file stays written. *)
Theorem new_store_absent_file (lang path : string) (w : world) :
  lookup path (json_files w) = None ->
  let j := dict_set path (JFile (JObj [])) (json_files w) in
  new_custom_stopwords lang path w =
    match lookup lang (corpus w) with
    | Some base =>
        (inl (next_ref w),
         mkWorld (files w) j (corpus w)
           ((next_ref w, OStore (mkCustomStopwords lang path [] (py_set base))) :: heap w)
           (S (next_ref w)))
    | None =>
        (inr (LookupError "Resource stopwords not found"),
         mkWorld (files w) j (corpus w) (heap w) (next_ref w))
    end.
Proof.
  intros Habs j. unfold new_custom_stopwords.
  assert (E1 : ensure_storage path w = (inl tt, set_json_files w j))
    by (unfold ensure_storage; now rewrite Habs).
  rewrite (bind_ok _ _ _ _ _ E1). cbv beta.
  unfold bind at 1, load_custom_stopwords. cbn [json_files set_json_files corpus].
  unfold j. rewrite lookup_dict_set_same. cbn [lookup py_set_of_json fold_right].
  destruct (lookup lang (corpus w)); reflexivity.
Qed.

Lemma save_not_object (r : nat) (st : custom_stopwords) (w : world) :
  heap_get r (heap w) = Some (OStore st) ->
  (forall kvs, lookup (storage_path st) (json_files w) <> Some (JFile (JObj kvs))) ->
  exists e, save r w = (inr e, w).
Proof.
  intros Hst Hno. unfold save, bind, get_store. rewrite Hst.
  destruct (lookup (storage_path st) (json_files w)) as [[[]|]|];
    try (eexists; reflexivity).
  exfalso. eapply Hno. reflexivity.
Qed.

(** When the storage file is missing, is not valid JSON or does not hold a
    JSON object, [add] and [remove] raise from [_save] and write no file;
    the in-memory custom set has already been updated and stays so. *)
Theorem update_bad_file_raises (r : nat) (st : custom_stopwords) (words : words_arg)
    (w : world) :
  heap_get r (heap w) = Some (OStore st) ->
  (forall kvs, lookup (storage_path st) (json_files w) <> Some (JFile (JObj kvs))) ->
  (exists e, add r words w =
     (inr e, set_heap w (heap_set r (OStore (with_custom st
        (fold_left (fun acc word => set_add (lower word) acc)
                   (arg_list words) (custom_stopwords_set st)))) (heap w)))) /\
  (exists e, remove r words w =
     (inr e, set_heap w (heap_set r (OStore (with_custom st
        (fold_left (fun acc word => set_discard (lower word) acc)
                   (arg_list words) (custom_stopwords_set st)))) (heap w)))).
Proof.
  intros Hst Hno. split.
  - rewrite (add_unfold _ _ _ _ Hst). eapply (save_not_object _ (with_custom st _)).
    + cbn [set_heap heap]. eapply heap_get_set_same. exact Hst.
    + exact Hno.
  - rewrite (remove_unfold _ _ _ _ Hst). eapply (save_not_object _ (with_custom st _)).
    + cbn [set_heap heap]. eapply heap_get_set_same. exact Hst.
    + exact Hno.
Qed.

(** [add(a)] followed by [remove(b)] on the same store, both succeeding:
    a word is then a custom stopword exactly when it is not the lowercase
    form of a word of [b] and it was a custom stopword before or is the
    lowercase form of a word of [a]; the base list is untouched.  Adding
    and then removing the same words drops them, also those that were
    custom stopwords before. *)
Theorem add_then_remove (r : nat) (st : custom_stopwords) (a b : words_arg)
    (w w1 w2 : world) :
  heap_get r (heap w) = Some (OStore st) ->
  add r a w = (inl tt, w1) ->
  remove r b w1 = (inl tt, w2) ->
  exists st2, heap_get r (heap w2) = Some (OStore st2) /\
    base_stopwords st2 = base_stopwords st /\
    forall x, mem x (custom_stopwords_set st2) =
      negb (existsb (fun y => String.eqb (lower y) x) (arg_list b)) &&
      (existsb (fun y => String.eqb x (lower y)) (arg_list a)
       || mem x (custom_stopwords_set st)).
Proof.
  intros Hst Ha Hb.
  set (ca := fold_left (fun acc word => set_add (lower word) acc)
                       (arg_list a) (custom_stopwords_set st)).
  rewrite (add_unfold _ _ _ _ Hst) in Ha. fold ca in Ha.
  assert (H1 : heap_get r (heap w1) = Some (OStore (with_custom st ca))).
  { replace w1 with (snd (save r (set_heap w (heap_set r (OStore (with_custom st ca))
                                                (heap w))))) by now rewrite Ha.
    rewrite save_heap. cbn [set_heap heap]. eapply heap_get_set_same. exact Hst. }
  rewrite (remove_unfold _ _ _ _ H1) in Hb.
  eexists. split.
  - replace w2 with (snd (save r (set_heap w1 (heap_set r (OStore (with_custom
      (with_custom st ca) (fold_left (fun acc word => set_discard (lower word) acc)
         (arg_list b) (custom_stopwords_set (with_custom st ca))))) (heap w1)))))
      by now rewrite Hb.
    rewrite save_heap. cbn [set_heap heap]. eapply heap_get_set_same. exact H1.
  - split; [reflexivity|]. intros x. cbn [with_custom custom_stopwords_set].
    rewrite (mem_fold_discard lower). unfold ca. rewrite (mem_fold_set_add lower).
    reflexivity.
Qed.

Lemma new_store_absent_file_witness :
  new_custom_stopwords "english" "other.json" demo_world =
    (inl 3, mkWorld (files demo_world)
              (dict_set "other.json" (JFile (JObj [])) (json_files demo_world))
              (corpus demo_world)
              ((3, OStore (mkCustomStopwords "english" "other.json" []
                             (py_set ["the"; "a"; "is"]))) :: heap demo_world) 4) /\
  new_custom_stopwords "french" "other.json" demo_world =
    (inr (LookupError "Resource stopwords not found"),
     mkWorld (files demo_world)
       (dict_set "other.json" (JFile (JObj [])) (json_files demo_world))
       (corpus demo_world) (heap demo_world) 3).
Proof.
  split.
  - exact (new_store_absent_file "english" "other.json" demo_world eq_refl).
  - exact (new_store_absent_file "french" "other.json" demo_world eq_refl).
Defined.

Lemma update_bad_file_raises_witness :
  (exists e, add 0 (OneWord "Bar") (set_json_files demo_world []) =
     (inr e, set_heap (set_json_files demo_world [])
               (heap_set 0 (OStore (with_custom demo_store ["foo"; "bar"]))
                  (heap demo_world)))) /\
  (exists e, remove 0 (OneWord "Bar") (set_json_files demo_world []) =
     (inr e, set_heap (set_json_files demo_world [])
               (heap_set 0 (OStore (with_custom demo_store ["foo"])) (heap demo_world)))).
Proof.
  exact (update_bad_file_raises 0 demo_store _ (set_json_files demo_world []) eq_refl
           (fun kvs H => ltac:(discriminate H))).
Defined.

Lemma add_then_remove_witness :
  exists st2,
    heap_get 0 (heap (snd (remove 0 (Words ["foo"])
                             (snd (add 0 (Words ["Bar"]) demo_world)))))
      = Some (OStore st2) /\
    base_stopwords st2 = base_stopwords demo_store /\
    forall x, mem x (custom_stopwords_set st2) =
      negb (existsb (fun y => String.eqb (lower y) x) ["foo"]) &&
      (existsb (fun y => String.eqb x (lower y)) ["Bar"] || mem x ["foo"]).
Proof.
  apply (add_then_remove 0 demo_store (Words ["Bar"]) (Words ["foo"]) demo_world
           (snd (add 0 (Words ["Bar"]) demo_world)) _ eq_refl);
    vm_compute; reflexivity.
Defined.

(** * [ProcessorRegistry]: which calls raise [ValueError] *)

(** Case on the innermost [match] of hypothesis [H]. *)
Ltac destruct_inner H :=
  match type of H with
  | context [match ?x with _ => _ end] =>
      lazymatch x with
      | context [match _ with _ => _ end] => fail
      | _ => destruct x eqn:?
      end
  end.

Ltac in_reg := repeat (first [left; reflexivity | right]).

Lemma vsafe_bind {A B} (P : world -> Prop) (m : M A) (Q : A -> world -> Prop)
    (k : A -> M B) (R : B -> world -> Prop) :
  vsafe P m Q -> (forall a, vsafe (Q a) (k a) R) -> vsafe P (bind m k) R.
Proof.
  intros Hm Hk w Hw. specialize (Hm w Hw). unfold bind.
  destruct (m w) as [[a|e] w0]; [exact (Hk a w0 Hm)|exact Hm].
Qed.

Lemma vsafe_err {A} (P : world -> Prop) (m : M A) (Q : A -> world -> Prop)
    (w w' : world) (e : exn) :
  vsafe P m Q -> P w -> m w = (inr e, w') -> is_value_error e = false.
Proof. intros Hm Hw H. specialize (Hm w Hw). now rewrite H in Hm. Qed.

Lemma vsafe_ensure_storage (path : string) :
  vsafe storage_ok (ensure_storage path) (fun _ => storage_ok).
Proof.
  intros w Hw. unfold ensure_storage.
  destruct (lookup path (json_files w)); [exact Hw|].
  cbv beta iota. intros t. cbn [set_json_files json_files].
  destruct (String.eqb_spec path "custom_stopwords.json") as [->|Hne].
  - rewrite lookup_dict_set_same. discriminate.
  - rewrite lookup_dict_set_other by (intros E; apply Hne; now symmetry). apply Hw.
Qed.

Lemma py_set_of_json_not_ve (v : json) (e : exn) :
  py_set_of_json v = inr e -> is_value_error e = false.
Proof.
  destruct v; cbn [py_set_of_json]; intros H; try discriminate H;
    try (injection H as <-; reflexivity).
  destruct (fold_right _ _ _); [discriminate H|]. injection H as <-. reflexivity.
Qed.

Lemma vsafe_load (lang : string) :
  vsafe storage_ok (load_custom_stopwords lang "custom_stopwords.json") (fun _ => storage_ok).
Proof.
  intros w Hw. unfold load_custom_stopwords. cbv zeta.
  destruct (lookup "custom_stopwords.json" (json_files w)) as [[data|t]|] eqn:E.
  - destruct data as [| | | | |kvs]; try reflexivity.
    destruct (py_set_of_json _) as [custom|e] eqn:Ep.
    + destruct (lookup lang (corpus w)); [exact Hw|reflexivity].
    + exact (py_set_of_json_not_ve _ _ Ep).
  - exfalso. exact (Hw t E).
  - reflexivity.
Qed.

Lemma vsafe_new_store (lang : string) :
  vsafe storage_ok (new_custom_stopwords lang "custom_stopwords.json")
        (fun r w => storage_ok w /\ csj_store r w).
Proof.
  unfold new_custom_stopwords.
  eapply vsafe_bind; [apply vsafe_ensure_storage|]. intros u.
  eapply vsafe_bind; [apply vsafe_load|]. intros cb w Hw.
  unfold alloc. cbv beta iota. split; [exact Hw|].
  eexists. cbn [heap heap_get]. rewrite Nat.eqb_refl. split; reflexivity.
Qed.

Lemma vsafe_save (r : nat) :
  vsafe (fun w => storage_ok w /\ csj_store r w) (save r)
        (fun _ w => storage_ok w /\ csj_store r w).
Proof.
  intros w [Hw (st & Hst & Hp)]. unfold save, bind, get_store. rewrite Hst.
  cbv beta iota. rewrite Hp.
  destruct (lookup "custom_stopwords.json" (json_files w)) as [[[| | | | |kvs]|t]|] eqn:E;
    try reflexivity.
  - split.
    + intros t. cbn [set_json_files json_files]. rewrite lookup_dict_set_same. discriminate.
    + exists st. split; [exact Hst|exact Hp].
  - exfalso. exact (Hw t E).
Qed.

Lemma vsafe_add (r : nat) (words : words_arg) :
  vsafe (fun w => storage_ok w /\ csj_store r w) (add r words)
        (fun _ w => storage_ok w /\ csj_store r w).
Proof.
  intros w [Hw (st & Hst & Hp)]. unfold add, bind at 1, get_store at 1. rewrite Hst.
  cbv beta iota. unfold bind, put_obj. cbv beta iota.
  apply vsafe_save. split; [exact Hw|].
  exists (with_custom st (fold_left (fun acc word => set_add (lower word) acc)
                                    (arg_list words) (custom_stopwords_set st))).
  split; [|exact Hp]. cbn [set_heap heap]. eapply heap_get_set_same. exact Hst.
Qed.

Lemma vsafe_preset_factory (terms : list string) :
  vsafe storage_ok
    (stopwords <- new_custom_stopwords "english" "custom_stopwords.json" ;;
     _ <- add stopwords (Words terms) ;;
     new_text_processor stopwords) (fun _ _ => True).
Proof.
  eapply vsafe_bind; [apply vsafe_new_store|]. intros s.
  eapply vsafe_bind; [apply vsafe_add|]. intros u w _. exact I.
Qed.

Lemma vsafe_registry (doc : string) :
  In doc list_types -> vsafe storage_ok (registry_get_processor doc) (fun _ _ => True).
Proof.
  intros Hin. unfold list_types in Hin.
  unfold registry_get_processor. cbn [registry map fst lookup In] in *.
  destruct (String.eqb_spec doc "technical").
  { unfold create_technical_processor.
    eapply vsafe_bind; [apply vsafe_new_store|]. intros s w _. exact I. }
  destruct (String.eqb_spec doc "web"); [apply vsafe_preset_factory|].
  destruct (String.eqb_spec doc "business"); [apply vsafe_preset_factory|].
  destruct (String.eqb_spec doc "academic"); [apply vsafe_preset_factory|].
  destruct (String.eqb_spec doc "news"); [apply vsafe_preset_factory|].
  exfalso. repeat destruct Hin as [<-|Hin]; try congruence; exact Hin.
Qed.

Lemma new_store_malformed (lang path t : string) (w : world) :
  lookup path (json_files w) = Some (JMalformed t) ->
  new_custom_stopwords lang path w = (inr JSONDecodeError, w).
Proof.
  intros Hm. unfold new_custom_stopwords, bind, ensure_storage. cbv beta.
  rewrite Hm. cbv beta iota. unfold load_custom_stopwords. now rewrite Hm.
Qed.

(** [ProcessorRegistry.get_processor] raises [ValueError] with the
    message naming the type and the available ones, and changes nothing,
    for a document type that [list_types()] does not list.  For a listed
    type the factory runs: while the stopword file is absent or parsable,
    nothing it raises is an instance of [ValueError]; when the file is not
    parsable, it raises [json.JSONDecodeError], a subclass of
    [ValueError], and changes nothing. *)
Theorem registry_value_error (doc : string) (w : world) :
  (~ In doc list_types ->
   registry_get_processor doc w =
     (inr (ValueError ("Unknown document type '" ++ doc
        ++ "'. Available: technical, web, business, academic, news")), w)) /\
  (In doc list_types ->
   (forall t, lookup "custom_stopwords.json" (json_files w) <> Some (JMalformed t)) ->
   forall e w', registry_get_processor doc w = (inr e, w') -> is_value_error e = false) /\
  (forall t, In doc list_types ->
   lookup "custom_stopwords.json" (json_files w) = Some (JMalformed t) ->
   registry_get_processor doc w = (inr JSONDecodeError, w)).
Proof.
  split; [|split].
  - unfold list_types, registry_get_processor. cbn [registry map fst lookup In].
    intros Hn.
    destruct (String.eqb_spec doc "technical"); [subst; exfalso; apply Hn; in_reg|].
    destruct (String.eqb_spec doc "web"); [subst; exfalso; apply Hn; in_reg|].
    destruct (String.eqb_spec doc "business"); [subst; exfalso; apply Hn; in_reg|].
    destruct (String.eqb_spec doc "academic"); [subst; exfalso; apply Hn; in_reg|].
    destruct (String.eqb_spec doc "news"); [subst; exfalso; apply Hn; in_reg|].
    reflexivity.
  - intros Hin Hok e w' H. exact (vsafe_err _ _ _ _ _ _ (vsafe_registry doc Hin) Hok H).
  - intros t Hin Hm.
    pose proof (new_store_malformed "english" _ _ _ Hm) as Hs.
    unfold list_types in Hin. unfold registry_get_processor. cbn [registry map fst lookup In] in *.
    destruct (String.eqb_spec doc "technical").
    { unfold create_technical_processor. exact (bind_err _ _ _ _ _ Hs). }
    destruct (String.eqb_spec doc "web"); [exact (bind_err _ _ _ _ _ Hs)|].
    destruct (String.eqb_spec doc "business"); [exact (bind_err _ _ _ _ _ Hs)|].
    destruct (String.eqb_spec doc "academic"); [exact (bind_err _ _ _ _ _ Hs)|].
    destruct (String.eqb_spec doc "news"); [exact (bind_err _ _ _ _ _ Hs)|].
    exfalso. repeat destruct Hin as [<-|Hin]; try congruence; exact Hin.
Qed.

Lemma registry_value_error_witness :
  registry_get_processor "poetry" demo_world =
    (inr (ValueError ("Unknown document type '" ++ "poetry"
       ++ "'. Available: technical, web, business, academic, news")), demo_world) /\
  registry_get_processor "web" demo_world_no_corpus
    = (inr (LookupError "Resource stopwords not found"), demo_world_no_corpus) /\
  is_value_error (LookupError "Resource stopwords not found") = false /\
  registry_get_processor "web" demo_world_malformed
    = (inr JSONDecodeError, demo_world_malformed).
Proof.
  split; [|split; [|split]].
  - apply (proj1 (registry_value_error "poetry" demo_world)).
    cbn [list_types registry map fst In]. intros H.
    repeat (destruct H as [H|H]; [discriminate H|]); exact H.
  - vm_compute. reflexivity.
  - apply (proj1 (proj2 (registry_value_error "web" demo_world_no_corpus))
             ltac:(cbn [list_types registry map fst In]; in_reg)
             ltac:(intros t; vm_compute; discriminate) _ demo_world_no_corpus).
    vm_compute. reflexivity.
  - apply (proj2 (proj2 (registry_value_error "web" demo_world_malformed)) "{"
             ltac:(cbn [list_types registry map fst In]; in_reg)).
    reflexivity.
Defined.

(** * More of [NLPPipeline] *)

(** [NLPPipeline.get_processor] caches what it returns: once a call for a
    document type has returned a processor, the next call for the same
    type returns the same processor and changes nothing. *)
Theorem pipeline_get_processor_cached (self : nat) (dt : string) (t : nat) (w w1 : world) :
  pipeline_get_processor self dt w = (inl t, w1) ->
  pipeline_get_processor self dt w1 = (inl t, w1).
Proof.
  intros H. assert (Hc : exists p1, heap_get self (heap w1) = Some (OPipeline p1) /\
                                    lookup dt (processors p1) = Some t).
  { unfold pipeline_get_processor in H.
    stepn H p wa Hp H1. apply get_pipeline_inl in Hp as [-> Hp].
    destruct (lookup dt (processors p)) eqn:Ed.
    - apply ret_inl in H1 as [-> ->]. now exists p.
    - stepn H1 t0 wb Hreg H2. stepn H2 p' wc Hp' H3.
      apply get_pipeline_inl in Hp' as [-> Hp'].
      stepn H3 u wd Hput H4. apply put_obj_inl in Hput as ->.
      apply ret_inl in H4 as [-> ->].
      eexists. split.
      + cbn [set_heap heap]. eapply heap_get_set_same. exact Hp'.
      + cbn [processors]. apply lookup_dict_set_same. }
  destruct Hc as (p1 & Hp1 & Hl). unfold pipeline_get_processor.
  assert (E : get_pipeline self w1 = (inl p1, w1)) by (unfold get_pipeline; now rewrite Hp1).
  rewrite (bind_ok _ _ _ _ _ E), Hl. reflexivity.
Qed.

Lemma pipeline_get_processor_cached_witness :
  pipeline_get_processor 2 "web" demo_world
    = (inl 4, snd (pipeline_get_processor 2 "web" demo_world)) /\
  pipeline_get_processor 2 "web" (snd (pipeline_get_processor 2 "web" demo_world))
    = (inl 4, snd (pipeline_get_processor 2 "web" demo_world)).
Proof.
  assert (H : pipeline_get_processor 2 "web" demo_world
                = (inl 4, snd (pipeline_get_processor 2 "web" demo_world)))
    by (vm_compute; reflexivity).
  split; [exact H|]. exact (pipeline_get_processor_cached 2 "web" 4 _ _ H).
Defined.

(** [NLPPipeline.reset] empties the result log and keeps the default type
    and the cached processors; [get_pipeline_stats] then answers
    [{"message": "No results yet"}]. *)
Theorem reset_then_stats (self : nat) (p : pipeline) (w : world) :
  heap_get self (heap w) = Some (OPipeline p) ->
  exists w1, reset self w = (inl tt, w1) /\
    heap_get self (heap w1) = Some (OPipeline (mkPipeline (default_type p) (processors p) [])) /\
    files w1 = files w /\ json_files w1 = json_files w /\
    get_pipeline_stats self w1 = (inl [("message", VStr "No results yet")], w1).
Proof.
  intros Hp. unfold reset.
  assert (E : get_pipeline self w = (inl p, w)) by (unfold get_pipeline; now rewrite Hp).
  rewrite (bind_ok _ _ _ _ _ E). eexists. split; [reflexivity|].
  assert (H1 : heap_get self (heap (set_heap w (heap_set self
                 (OPipeline (mkPipeline (default_type p) (processors p) [])) (heap w))))
               = Some (OPipeline (mkPipeline (default_type p) (processors p) [])))
    by (cbn [set_heap heap]; eapply heap_get_set_same; exact Hp).
  split; [exact H1|]. split; [reflexivity|]. split; [reflexivity|].
  unfold get_pipeline_stats.
  assert (E2 : get_pipeline self (set_heap w (heap_set self
                 (OPipeline (mkPipeline (default_type p) (processors p) [])) (heap w)))
               = (inl (mkPipeline (default_type p) (processors p) []), _))
    by (unfold get_pipeline; now rewrite H1).
  rewrite (bind_ok _ _ _ _ _ E2). reflexivity.
Qed.

Lemma reset_then_stats_witness :
  exists w1, reset 2 (snd (process_text 2 "the cat" None false 10 demo_world)) = (inl tt, w1) /\
    heap_get 2 (heap w1) = Some (OPipeline (mkPipeline "technical" [("technical", 4)] [])) /\
    files w1 = files (snd (process_text 2 "the cat" None false 10 demo_world)) /\
    json_files w1 = json_files (snd (process_text 2 "the cat" None false 10 demo_world)) /\
    get_pipeline_stats 2 w1 = (inl [("message", VStr "No results yet")], w1).
Proof.
  apply (reset_then_stats 2 (mkPipeline "technical" [("technical", 4)] [5]));
    vm_compute; reflexivity.
Defined.

Lemma pipeline_get_processor_frame (self : nat) (dt : string) (t : nat) (w w1 : world) :
  wf w = true -> pipeline_get_processor self dt w = (inl t, w1) ->
  (next_ref w <= next_ref w1)%nat /\
  forall r, r <> self -> (r < next_ref w)%nat -> heap_get r (heap w1) = heap_get r (heap w).
Proof.
  unfold pipeline_get_processor. intros Hw H.
  stepn H p wa Hp H1. apply get_pipeline_inl in Hp as [-> Hp].
  destruct (lookup dt (processors p)).
  - apply ret_inl in H1 as [_ ->]. split; auto.
  - stepn H1 t0 wb Hreg H2.
    apply registry_get_processor_inl in Hreg as ((Hle & Hf & Hh) & Hwb & _); [|exact Hw].
    stepn H2 p' wc Hp' H3. apply get_pipeline_inl in Hp' as [-> _].
    stepn H3 u wd Hput H4. apply put_obj_inl in Hput as ->.
    apply ret_inl in H4 as [_ ->]. split; [exact Hle|].
    intros r Hr Hlt. cbn [set_heap heap]. rewrite heap_get_set_other by exact Hr.
    now apply Hh.
Qed.

(** [NLPPipeline.get_processor] leaves the returned processor cached under
    the type and keeps every processor cached before. *)
Lemma pipeline_get_processor_map (self : nat) (dt : string) (t : nat) (p : pipeline)
    (w w1 : world) :
  wf w = true -> heap_get self (heap w) = Some (OPipeline p) ->
  pipeline_get_processor self dt w = (inl t, w1) ->
  exists p1,
    heap_get self (heap w1) = Some (OPipeline p1) /\
    lookup dt (processors p1) = Some t /\
    forall k t', lookup k (processors p) = Some t' -> lookup k (processors p1) = Some t'.
Proof.
  unfold pipeline_get_processor. intros Hw Hp H.
  stepn H p0 wa Hp0 H1. apply get_pipeline_inl in Hp0 as [-> Hp0].
  rewrite Hp in Hp0. injection Hp0 as <-.
  destruct (lookup dt (processors p)) as [t0|] eqn:El.
  - apply ret_inl in H1 as [-> ->]. exists p. split; [exact Hp|]. split; [exact El|]. auto.
  - stepn H1 t0 wb Hreg H2.
    apply registry_get_processor_inl in Hreg as ((Hle & Hf & Hh) & Hwb & _); [|exact Hw].
    stepn H2 p' wc Hp' H3. apply get_pipeline_inl in Hp' as [-> Hp'].
    rewrite Hh in Hp' by (eapply wf_get; eauto). rewrite Hp in Hp'. injection Hp' as <-.
    stepn H3 u wd Hput H4. apply put_obj_inl in Hput as ->.
    apply ret_inl in H4 as [-> ->].
    eexists. split.
    + cbn [set_heap heap]. eapply heap_get_set_same. rewrite Hh; [exact Hp|].
      eapply wf_get; eauto.
    + cbn [processors]. split; [apply lookup_dict_set_same|].
      intros k t' Hk. destruct (String.eqb_spec k dt) as [->|Hne]; [congruence|].
      rewrite lookup_dict_set_other by exact Hne. exact Hk.
Qed.

(** What a successful [process_text] does to the state: its dict, for the
    resolved type, at a fresh reference appended to the log; every other
    object that existed before is untouched except through the pipeline. *)
Lemma process_text_log (self : nat) (text : string) (doc : option string) (gf : bool)
    (n : Z) (r : nat) (w w' : world) :
  wf w = true -> process_text self text doc gf n w = (inl r, w') ->
  exists p p' st,
    heap_get self (heap w) = Some (OPipeline p) /\
    heap_get self (heap w') = Some (OPipeline p') /\
    results p' = (results p ++ [r])%list /\ default_type p' = default_type p /\
    wf w' = true /\ files w' = files w /\
    (next_ref w <= r)%nat /\ (r < next_ref w')%nat /\
    heap_get r (heap w') =
      Some (ODict (text_result (doc_type_or doc (default_type p)) text st gf n)) /\
    (exists t s, lookup (doc_type_or doc (default_type p)) (processors p') = Some t /\
       heap_get t (heap w') = Some (OProcessor s) /\ heap_get s (heap w') = Some (OStore st)) /\
    (forall k t, lookup k (processors p) = Some t -> lookup k (processors p') = Some t) /\
    forall r0, r0 <> self -> (r0 < next_ref w)%nat ->
      heap_get r0 (heap w') = heap_get r0 (heap w).
Proof.
  unfold process_text. intros Hw H.
  stepn H p wa Hp H1. apply get_pipeline_inl in Hp as [-> Hp].
  stepn H1 t wb Hgp H2.
  destruct (pipeline_get_processor_frame _ _ _ _ _ Hw Hgp) as [Hle Hfr].
  destruct (pipeline_get_processor_map _ _ _ _ _ _ Hw Hp Hgp) as (p2 & Hp2 & Hlk & Hmono).
  apply pipeline_get_processor_inl in Hgp
    as (p0 & p1 & Hp0 & Hp1 & Hres & Hdef & Hwb & Hfiles); [|exact Hw].
  rewrite Hp in Hp0. injection Hp0 as <-.
  rewrite Hp1 in Hp2. injection Hp2 as <-.
  stepn H2 s wc Hs H3. apply get_processor_obj_inl in Hs as [-> Hts].
  stepn H3 st wd Hst H4. apply get_store_inl in Hst as [-> Hss].
  assert (Htself : t <> self) by (intros ->; congruence).
  assert (Hsself : s <> self) by (intros ->; congruence).
  assert (Htlt : (t < next_ref wb)%nat) by (eapply wf_get; eauto).
  assert (Hslt : (s < next_ref wb)%nat) by (eapply wf_get; eauto).
  stepn H4 r0 we Ha H5. apply alloc_inl in Ha as [-> ->].
  stepn H5 p' wf' Hp' H6. apply get_pipeline_inl in Hp' as [-> Hp'].
  assert (Hself : (self < next_ref wb)%nat) by (eapply wf_get; eauto).
  cbn [heap heap_get] in Hp'.
  destruct (Nat.eqb_spec self (next_ref wb)) as [|_]; [lia|].
  rewrite Hp1 in Hp'. injection Hp' as <-.
  stepn H6 u wg Hput H7. apply put_obj_inl in Hput as ->.
  apply ret_inl in H7 as [-> ->].
  exists p, (mkPipeline (default_type p1) (processors p1) (results p1 ++ [next_ref wb])), st.
  cbn [set_heap heap next_ref files results default_type].
  split; [exact Hp|]. split.
  { eapply heap_get_set_same. cbn [heap_get].
    destruct (Nat.eqb_spec self (next_ref wb)); [lia|exact Hp1]. }
  split; [now rewrite Hres|]. split; [exact Hdef|]. split.
  { rewrite (wf_put (mkWorld (files wb) (json_files wb) (corpus wb)
      ((next_ref wb, ODict (text_result (doc_type_or doc (default_type p)) text st gf n))
       :: heap wb) (S (next_ref wb)))).
    now apply wf_alloc. }
  split; [exact Hfiles|]. split; [exact Hle|]. split; [lia|]. split.
  { rewrite heap_get_set_other by lia. cbn [heap_get]. now rewrite Nat.eqb_refl. }
  split.
  { exists t, s. split; [exact Hlk|]. split.
    - rewrite heap_get_set_other by exact Htself. cbn [heap_get].
      destruct (Nat.eqb_spec t (next_ref wb)); [lia|exact Hts].
    - rewrite heap_get_set_other by exact Hsself. cbn [heap_get].
      destruct (Nat.eqb_spec s (next_ref wb)); [lia|exact Hss]. }
  split; [exact Hmono|].
  intros r1 Hr1 Hlt. rewrite heap_get_set_other by exact Hr1. cbn [heap_get].
  destruct (Nat.eqb_spec r1 (next_ref wb)); [lia|]. now apply Hfr.
Qed.

(** The type a pair of [process_batch] is processed under. *)
Lemma process_batch_inv (self : nat) (texts : list (string * string)) :
  forall p rs w w1,
  wf w = true -> heap_get self (heap w) = Some (OPipeline p) ->
  process_batch self texts w = (inl rs, w1) ->
  exists p1,
    heap_get self (heap w1) = Some (OPipeline p1) /\
    results p1 = (results p ++ rs)%list /\ default_type p1 = default_type p /\
    wf w1 = true /\ files w1 = files w /\ (next_ref w <= next_ref w1)%nat /\
    Forall (fun r => next_ref w <= r < next_ref w1)%nat rs /\
    Forall2 (fun r td =>
      let dt := doc_type_or (Some (snd td)) (default_type p) in
      exists t s st,
        lookup dt (processors p1) = Some t /\
        heap_get t (heap w1) = Some (OProcessor s) /\
        heap_get s (heap w1) = Some (OStore st) /\
        heap_get r (heap w1) = Some (ODict (text_result dt (fst td) st false 10))) rs texts /\
    (forall k t, lookup k (processors p) = Some t -> lookup k (processors p1) = Some t) /\
    forall r0, r0 <> self -> (r0 < next_ref w)%nat ->
      heap_get r0 (heap w1) = heap_get r0 (heap w).
Proof.
  induction texts as [|[text d] texts IH]; intros p rs w w1 Hw Hp H; cbn [process_batch] in H.
  - apply ret_inl in H as [-> ->]. exists p.
    split; [exact Hp|]. split; [now rewrite app_nil_r|]. split; [reflexivity|].
    split; [exact Hw|]. split; [reflexivity|]. split; [lia|].
    split; [constructor|]. split; [constructor|]. split; [auto|]. auto.
  - stepn H r wa Hpt H1.
    destruct (process_text_log _ _ _ _ _ _ _ _ Hw Hpt)
      as (p0 & p' & st & Hp0 & Hp' & Hres & Hdef & Hwa & Hfa & Hlo & Hhi & Hr
          & (t & s & Hlk & Hts & Hss) & Hmono & Hfra).
    rewrite Hp in Hp0. injection Hp0 as <-.
    stepn H1 rs' wb Hb H2. apply ret_inl in H2 as [-> ->].
    destruct (IH _ _ _ _ Hwa Hp' Hb)
      as (p1 & Hp1 & Hres1 & Hdef1 & Hwb & Hfb & Hle & Hbnd & Hdicts & Hmono1 & Hfrb).
    assert (Htself : t <> self) by (intros ->; congruence).
    assert (Hsself : s <> self) by (intros ->; congruence).
    assert (Htlt : (t < next_ref wa)%nat) by (eapply wf_get; eauto).
    assert (Hslt : (s < next_ref wa)%nat) by (eapply wf_get; eauto).
    assert (Hself : (self < next_ref w)%nat) by (eapply wf_get; eauto).
    exists p1. split; [exact Hp1|]. split.
    { rewrite Hres1, Hres, <- app_assoc. reflexivity. }
    split; [congruence|]. split; [exact Hwb|]. split; [congruence|]. split; [lia|].
    split.
    { constructor; [cbv beta; lia|]. eapply Forall_impl; [|exact Hbnd]. intros x Hx. cbv beta in *; lia. }
    split.
    { constructor.
      - exists t, s, st. cbn [fst snd]. split; [now apply Hmono1|].
        rewrite !Hfrb by lia. split; [exact Hts|]. split; [exact Hss|exact Hr].
      - rewrite Hdef in Hdicts. exact Hdicts. }
    split; [intros k t0 Hk; now apply Hmono1, Hmono|].
    intros r0 Hr0 Hlt. rewrite Hfrb by lia. now apply Hfra.
Qed.

(** [NLPPipeline.process_batch] returns one result per pair, in order, and
    appends exactly these results to the pipeline's log; the result of a
    pair [(text, doc_type)] is the dict of [process_text] for [text] under
    the resolved type [doc_type], or the default type when [doc_type] is
    [""], filtered through the store of the processor that the pipeline
    holds for that type after the batch. *)
Theorem process_batch_log (self : nat) (p : pipeline) (texts : list (string * string))
    (rs : list nat) (w w1 : world) :
  wf w = true -> heap_get self (heap w) = Some (OPipeline p) ->
  process_batch self texts w = (inl rs, w1) ->
  exists p1,
    heap_get self (heap w1) = Some (OPipeline p1) /\
    results p1 = (results p ++ rs)%list /\ length rs = length texts /\
    Forall2 (fun r td =>
      let dt := doc_type_or (Some (snd td)) (default_type p) in
      exists t s st,
        lookup dt (processors p1) = Some t /\
        heap_get t (heap w1) = Some (OProcessor s) /\
        heap_get s (heap w1) = Some (OStore st) /\
        heap_get r (heap w1) = Some (ODict (text_result dt (fst td) st false 10))) rs texts.
Proof.
  intros Hw Hp H.
  destruct (process_batch_inv _ _ _ _ _ _ Hw Hp H)
    as (p1 & Hp1 & Hres & _ & _ & _ & _ & _ & Hdicts & _).
  exists p1. split; [exact Hp1|]. split; [exact Hres|]. split; [|exact Hdicts].
  exact (Forall2_length Hdicts).
Qed.

Lemma process_batch_log_witness :
  exists p1,
    heap_get 2 (heap (snd (process_batch 2 [("the cat sat", "web"); ("b", "")] demo_world)))
      = Some (OPipeline p1) /\
    results p1 = ([] ++ [5; 8])%list /\ length [5; 8] = length [("the cat sat", "web"); ("b", "")] /\
    Forall2 (fun r td =>
      let dt := doc_type_or (Some (snd td)) "technical" in
      let w1 := snd (process_batch 2 [("the cat sat", "web"); ("b", "")] demo_world) in
      exists t s st,
        lookup dt (processors p1) = Some t /\
        heap_get t (heap w1) = Some (OProcessor s) /\
        heap_get s (heap w1) = Some (OStore st) /\
        heap_get r (heap w1) = Some (ODict (text_result dt (fst td) st false 10)))
      [5; 8] [("the cat sat", "web"); ("b", "")].
Proof.
  apply (process_batch_log 2 (mkPipeline "technical" [] []) _ _ demo_world); vm_compute;
    reflexivity.
Defined.

Lemma text_dicts_stats (dflt : string) (w : world) (rs : list nat)
    (texts : list (string * string)) :
  Forall2 (fun r td => exists st, heap_get r (heap w) =
    Some (ODict (text_result (doc_type_or (Some (snd td)) dflt) (fst td) st false 10)))
    rs texts ->
  exists T U,
    sum_counts "token_count" rs w = (inl T, w) /\
    sum_counts "unique_tokens" rs w = (inl U, w) /\ (0 <= U <= T)%Z /\
    result_types rs w = (inl (map (fun td => doc_type_or (Some (snd td)) dflt) texts), w).
Proof.
  induction 1 as [|r td rs texts [st Hr] _ IH].
  - exists 0%Z, 0%Z. repeat split; lia.
  - destruct IH as (T & U & HT & HU & HUT & Hty).
    set (toks := preprocess (fst td) st true).
    set (d := text_result (doc_type_or (Some (snd td)) dflt) (fst td) st false 10) in Hr.
    assert (Hd : get_dict r w = (inl d, w)) by (unfold get_dict; now rewrite Hr).
    assert (Hc : get_count "token_count" d = ret (Z.of_nat (length toks)))
      by (unfold get_count, d; rewrite text_result_lookup by discriminate; reflexivity).
    assert (Hu : get_count "unique_tokens" d = ret (Z.of_nat (length (py_set toks))))
      by (unfold get_count, d; rewrite text_result_lookup by discriminate; reflexivity).
    assert (Ht : lookup "type" d = Some (VStr (doc_type_or (Some (snd td)) dflt)))
      by (unfold d; rewrite text_result_lookup by discriminate; reflexivity).
    exists (Z.of_nat (length toks) + T)%Z, (Z.of_nat (length (py_set toks)) + U)%Z.
    cbn [sum_counts result_types map]. rewrite !(bind_ok _ _ _ _ _ Hd).
    split; [|split; [|split]].
    + rewrite Hc. unfold ret at 1. rewrite (bind_ok _ _ _ _ _ (eq_refl : _ = (inl _, w))).
      rewrite (bind_ok _ _ _ _ _ HT). reflexivity.
    + rewrite Hu. unfold ret at 1. rewrite (bind_ok _ _ _ _ _ (eq_refl : _ = (inl _, w))).
      rewrite (bind_ok _ _ _ _ _ HU). reflexivity.
    + pose proof (length_nodup_le toks). rewrite <- length_py_set in H. lia.
    + rewrite (bind_ok _ _ _ _ _ Hty), Ht. reflexivity.
Qed.

(** [get_pipeline_stats] after [process_batch] of a nonempty list on a
    pipeline with an empty log (new, or just [reset]): one document per
    pair, ["avg_tokens_per_doc"] is [round(total_tokens / documents, 2)],
    the unique-token total never exceeds the token total, and
    ["document_types"] lists each type the pairs were processed under
    ([""] standing for the default type) once. *)
Theorem batch_stats (self : nat) (p : pipeline) (texts : list (string * string))
    (rs : list nat) (w w1 : world) :
  wf w = true -> heap_get self (heap w) = Some (OPipeline p) -> results p = [] ->
  texts <> [] -> process_batch self texts w = (inl rs, w1) ->
  exists T U,
    get_pipeline_stats self w1 =
      (inl [("total_documents", VInt (Z.of_nat (length texts)));
            ("total_tokens", VInt T);
            ("total_unique_tokens", VInt U);
            ("avg_tokens_per_doc",
               VFloat (py_round2 (int_truediv T (Z.of_nat (length texts)))));
            ("document_types", VList (map VStr (py_set
               (map (fun td => doc_type_or (Some (snd td)) (default_type p)) texts))))],
       w1) /\ (0 <= U <= T)%Z.
Proof.
  intros Hw Hp Hnil Hne H.
  destruct (process_batch_inv _ _ _ _ _ _ Hw Hp H)
    as (p1 & Hp1 & Hres & _ & _ & _ & _ & _ & Hdicts & _).
  rewrite Hnil in Hres. cbn [app] in Hres.
  assert (Hd : Forall2 (fun r td => exists st, heap_get r (heap w1) =
                 Some (ODict (text_result (doc_type_or (Some (snd td)) (default_type p))
                                          (fst td) st false 10))) rs texts)
    by (eapply Forall2_impl; [|exact Hdicts];
        intros r td (t & s & st & _ & _ & _ & Hr); now exists st).
  clear Hdicts. rename Hd into Hdicts.
  pose proof (Forall2_length Hdicts) as Hlen.
  destruct (text_dicts_stats _ _ _ _ Hdicts) as (T & U & HT & HU & HUT & Hty).
  exists T, U. split; [|exact HUT].
  unfold get_pipeline_stats.
  assert (E : get_pipeline self w1 = (inl p1, w1)) by (unfold get_pipeline; now rewrite Hp1).
  rewrite (bind_ok _ _ _ _ _ E), Hres.
  destruct rs as [|r rs']; [destruct texts; [congruence|discriminate Hlen]|].
  cbv beta iota.
  rewrite (bind_ok _ _ _ _ _ HT), (bind_ok _ _ _ _ _ HU), (bind_ok _ _ _ _ _ Hty).
  rewrite Hlen. reflexivity.
Qed.

Lemma batch_stats_witness :
  exists T U,
    get_pipeline_stats 2 (snd (process_batch 2 [("the cat sat", "web"); ("b", "")] demo_world)) =
      (inl [("total_documents", VInt (Z.of_nat (length [("the cat sat", "web"); ("b", "")])));
            ("total_tokens", VInt T);
            ("total_unique_tokens", VInt U);
            ("avg_tokens_per_doc",
               VFloat (py_round2 (int_truediv T
                 (Z.of_nat (length [("the cat sat", "web"); ("b", "")])))));
            ("document_types", VList (map VStr (py_set
               (map (fun td => doc_type_or (Some (snd td)) "technical")
                    [("the cat sat", "web"); ("b", "")]))))],
       snd (process_batch 2 [("the cat sat", "web"); ("b", "")] demo_world)) /\
    (0 <= U <= T)%Z.
Proof.
  apply (batch_stats 2 (mkPipeline "technical" [] []) _ [5; 8] demo_world);
    [reflexivity|reflexivity|reflexivity|discriminate|vm_compute; reflexivity].
Defined.

Lemma doc_type_or_idem (doc : option string) (dflt : string) :
  doc_type_or (Some (doc_type_or doc dflt)) dflt = doc_type_or doc dflt.
Proof.
  destruct doc as [d|]; cbn [doc_type_or].
  - destruct (String.eqb_spec d ""); cbn [doc_type_or].
    + now destruct (String.eqb dflt "").
    + destruct (String.eqb_spec d ""); congruence.
  - now destruct (String.eqb dflt "").
Qed.

Section CachedProcessor.

Variables (self t s : nat) (p : pipeline) (st : custom_stopwords) (dt : string)
  (gf : bool) (n : Z) (w : world).
Hypothesis Hw : wf w = true.
Hypothesis Hp : heap_get self (heap w) = Some (OPipeline p).
Hypothesis Hdt : doc_type_or (Some dt) (default_type p) = dt.
Hypothesis Hl : lookup dt (processors p) = Some t.
Hypothesis Ht : heap_get t (heap w) = Some (OProcessor s).
Hypothesis Hs : heap_get s (heap w) = Some (OStore st).

Let W1 (text : string) : world :=
  mkWorld (files w) (json_files w) (corpus w)
    (heap_set self (OPipeline (mkPipeline (default_type p) (processors p)
                                 (results p ++ [next_ref w])))
       ((next_ref w, ODict (text_result dt text st gf n)) :: heap w))
    (S (next_ref w)).

Lemma self_fresh : self <> next_ref w.
Proof. intros E. pose proof (wf_get _ _ _ Hw Hp). lia. Qed.

Lemma pgp_cached : pipeline_get_processor self dt w = (inl t, w).
Proof.
  unfold pipeline_get_processor.
  assert (E : get_pipeline self w = (inl p, w)) by (unfold get_pipeline; now rewrite Hp).
  rewrite (bind_ok _ _ _ _ _ E), Hl. reflexivity.
Qed.

Lemma process_text_cached (text : string) :
  process_text self text (Some dt) gf n w = (inl (next_ref w), W1 text).
Proof.
  unfold process_text.
  assert (E : get_pipeline self w = (inl p, w)) by (unfold get_pipeline; now rewrite Hp).
  rewrite (bind_ok _ _ _ _ _ E). cbv beta. rewrite Hdt.
  rewrite (bind_ok _ _ _ _ _ pgp_cached).
  assert (E1 : get_processor_obj t w = (inl s, w))
    by (unfold get_processor_obj; now rewrite Ht).
  rewrite (bind_ok _ _ _ _ _ E1).
  assert (E2 : get_store s w = (inl st, w)) by (unfold get_store; now rewrite Hs).
  rewrite (bind_ok _ _ _ _ _ E2).
  unfold bind at 1, alloc.
  assert (E3 : get_pipeline self
                 (mkWorld (files w) (json_files w) (corpus w)
                    ((next_ref w, ODict (text_result dt text st gf n)) :: heap w)
                    (S (next_ref w))) =
               (inl p, mkWorld (files w) (json_files w) (corpus w)
                    ((next_ref w, ODict (text_result dt text st gf n)) :: heap w)
                    (S (next_ref w)))).
  { unfold get_pipeline. cbn [heap heap_get].
    destruct (Nat.eqb_spec self (next_ref w)) as [E0|_];
      [exfalso; exact (self_fresh E0)|]. now rewrite Hp. }
  rewrite (bind_ok _ _ _ _ _ E3). reflexivity.
Qed.

Lemma W1_wf (text : string) : wf (W1 text) = true.
Proof.
  exact (eq_trans (wf_put (mkWorld (files w) (json_files w) (corpus w)
                             ((next_ref w, ODict (text_result dt text st gf n)) :: heap w)
                             (S (next_ref w))) self _)
                  (wf_alloc w _ Hw)).
Qed.

Lemma W1_self (text : string) :
  heap_get self (heap (W1 text)) =
    Some (OPipeline (mkPipeline (default_type p) (processors p) (results p ++ [next_ref w]))).
Proof.
  cbn [W1 heap]. eapply heap_get_set_same. cbn [heap_get].
  destruct (Nat.eqb_spec self (next_ref w)) as [E|_];
    [exfalso; exact (self_fresh E)|]. exact Hp.
Qed.

Lemma W1_new (text : string) :
  heap_get (next_ref w) (heap (W1 text)) = Some (ODict (text_result dt text st gf n)).
Proof.
  cbn [W1 heap]. rewrite heap_get_set_other by (apply not_eq_sym, self_fresh).
  cbn [heap_get]. now rewrite Nat.eqb_refl.
Qed.

(** [NLPPipeline.process_file] of an existing file when the processor of
    its type is cached: a readable file gives the [process_text] dict
    with the path added, logged; an unreadable one the error dict, not
    logged. *)
Lemma process_file_cached (path : string) (fe : file_entry) :
  fs_lookup path w = Some fe ->
  exists w1,
    process_file self path (Some dt) gf n w = (inl (next_ref w), w1) /\
    keeps_others self w w1 /\ (next_ref w < next_ref w1)%nat /\
    heap_get self (heap w1) =
      Some (OPipeline (mkPipeline (default_type p) (processors p)
        (results p ++ match fe with Readable _ => [next_ref w] | Unreadable _ => [] end))) /\
    heap_get (next_ref w) (heap w1) =
      Some (ODict (match fe with
                   | Readable text => dict_set "file" (VStr path) (text_result dt text st gf n)
                   | Unreadable m => [("file", VStr path); ("error", VStr m)]
                   end)).
Proof.
  intros Hf. unfold process_file.
  assert (E : get_pipeline self w = (inl p, w)) by (unfold get_pipeline; now rewrite Hp).
  rewrite (bind_ok _ _ _ _ _ E). cbv beta. rewrite Hdt.
  rewrite (bind_ok _ _ _ _ _ pgp_cached). unfold try_except.
  assert (Hself : (self < next_ref w)%nat) by exact (wf_get _ _ _ Hw Hp).
  destruct fe as [text|m].
  - assert (E1 : read_file path w = (inl text, w)) by (unfold read_file; now rewrite Hf).
    rewrite (bind_ok _ _ _ _ _ E1), (bind_ok _ _ _ _ _ (process_text_cached text)).
    assert (E2 : get_dict (next_ref w) (W1 text) = (inl (text_result dt text st gf n), W1 text))
      by (unfold get_dict; now rewrite W1_new).
    rewrite (bind_ok _ _ _ _ _ E2). unfold bind at 1, put_obj, ret.
    eexists. split; [reflexivity|]. unfold keeps_others.
    split; [|split; [|split]].
    + split; [|split; [reflexivity|split; [reflexivity|split; [cbn [set_heap next_ref W1]; lia|]]]].
      * rewrite (wf_put (W1 text)). exact (W1_wf text).
      * intros r Hr Hlt. cbn [set_heap heap W1]. rewrite heap_get_set_other by lia.
        rewrite heap_get_set_other by exact Hr. cbn [heap_get].
        destruct (Nat.eqb_spec r (next_ref w)); [lia|reflexivity].
    + cbn [set_heap next_ref W1]. lia.
    + cbn [set_heap heap]. rewrite heap_get_set_other by (apply self_fresh).
      exact (W1_self text).
    + cbn [set_heap heap]. eapply heap_get_set_same. exact (W1_new text).
  - assert (E1 : read_file path w = (inr (OSError m), w)) by (unfold read_file; now rewrite Hf).
    rewrite (bind_err _ _ _ _ _ E1). cbn [exn_str]. unfold alloc.
    eexists. split; [reflexivity|]. unfold keeps_others. cbn [heap next_ref files heap_get].
    rewrite Nat.eqb_refl. split; [|split; [|split]].
    + split; [|split; [reflexivity|split; [reflexivity|split; [lia|]]]].
      * apply (wf_alloc w). exact Hw.
      * intros r Hr Hlt. cbn [heap heap_get].
        destruct (Nat.eqb_spec r (next_ref w)); [lia|reflexivity].
    + lia.
    + destruct (Nat.eqb_spec self (next_ref w)); [lia|]. rewrite app_nil_r, Hp. now destruct p.
    + reflexivity.
Qed.

End CachedProcessor.

Lemma keeps_others_refl (self : nat) (w : world) : wf w = true -> keeps_others self w w.
Proof. intros Hw. unfold keeps_others. repeat split; auto. Qed.

Lemma keeps_others_trans (self : nat) (w0 w1 w2 : world) :
  keeps_others self w0 w1 -> keeps_others self w1 w2 -> keeps_others self w0 w2.
Proof.
  intros (_ & Hf1 & Hj1 & Hle1 & Hh1) (Hw2 & Hf2 & Hj2 & Hle2 & Hh2).
  split; [exact Hw2|]. split; [congruence|]. split; [congruence|]. split; [lia|].
  intros r Hr Hlt. rewrite Hh2 by (auto; lia). now apply Hh1.
Qed.

Lemma pl_process_paths_cached (self t s : nat) (st : custom_stopwords) (dt : string)
    (gf : bool) (w0 : world) (matches : list string) :
  forall p w,
  wf w = true -> heap_get self (heap w) = Some (OPipeline p) ->
  doc_type_or (Some dt) (default_type p) = dt -> lookup dt (processors p) = Some t ->
  heap_get t (heap w) = Some (OProcessor s) -> heap_get s (heap w) = Some (OStore st) ->
  (forall x, fs_lookup x w = fs_lookup x w0) ->
  exists rs w1,
    pl_process_paths self matches dt gf w = (inl rs, w1) /\ keeps_others self w w1 /\
    heap_get self (heap w1) =
      Some (OPipeline (mkPipeline (default_type p) (processors p)
        (results p ++ map fst (filter (fun rm =>
           match fs_lookup (snd rm) w0 with Some (Readable _) => true | _ => false end)
           (combine rs (filter (fun m =>
              match fs_lookup m w0 with Some _ => true | None => false end) matches)))))) /\
    Forall2 (fun r m => heap_get r (heap w1) = Some (ODict
      (match fs_lookup m w0 with
       | Some (Readable text) => dict_set "file" (VStr m) (text_result dt text st gf 10)
       | Some (Unreadable msg) => [("file", VStr m); ("error", VStr msg)]
       | None => []
       end))) rs
      (filter (fun m => match fs_lookup m w0 with Some _ => true | None => false end)
              matches) /\
    Forall (fun r => next_ref w <= r < next_ref w1)%nat rs.
Proof.
  induction matches as [|m ms IH]; intros p w Hw Hp Hdt Hl Ht Hs Hfs.
  - exists [], w. split; [reflexivity|]. split; [now apply keeps_others_refl|].
    split; [|split; constructor]. cbn [filter combine map]. rewrite app_nil_r, Hp.
    now destruct p.
  - assert (Hself : (self < next_ref w)%nat) by exact (wf_get _ _ _ Hw Hp).
    assert (Htself : t <> self) by congruence.
    assert (Hsself : s <> self) by congruence.
    assert (Htlt : (t < next_ref w)%nat) by exact (wf_get _ _ _ Hw Ht).
    assert (Hslt : (s < next_ref w)%nat) by exact (wf_get _ _ _ Hw Hs).
    cbn [pl_process_paths]. unfold bind at 1, is_file. cbv beta. cbn [filter].
    rewrite (Hfs m).
    destruct (fs_lookup m w0) as [fe|] eqn:Hf.
    + destruct (process_file_cached self t s p st dt gf 10 w Hw Hp Hdt Hl Ht Hs m fe
                  (eq_trans (Hfs m) Hf))
        as (w1 & Hpf & Hko & Hlt1 & Hself1 & Hnew).
      destruct Hko as (Hw1 & Hf1 & Hj1 & Hle1 & Hh1) eqn:Hko'.
      set (p1 := mkPipeline (default_type p) (processors p)
                   (results p ++ match fe with Readable _ => [next_ref w]
                                              | Unreadable _ => [] end)) in Hself1.
      destruct (IH p1 w1 Hw1 Hself1 Hdt Hl) as (rs & w2 & Hpp & Hko2 & Hself2 & Hd & Hb).
      { rewrite Hh1 by auto. exact Ht. }
      { rewrite Hh1 by auto. exact Hs. }
      { intros x. rewrite <- (Hfs x). unfold fs_lookup. now rewrite Hf1, Hj1. }
      exists (next_ref w :: rs), w2.
      rewrite (bind_ok _ _ _ _ _ Hpf), (bind_ok _ _ _ _ _ Hpp).
      split; [reflexivity|]. split; [exact (keeps_others_trans _ _ _ _ Hko Hko2)|].
      destruct Hko2 as (_ & _ & _ & Hle2 & Hh2).
      split; [|split].
      * rewrite Hself2. cbn [p1 combine filter snd fst results default_type processors].
        rewrite Hf. destruct fe; cbn [map fst]; now rewrite <- app_assoc.
      * constructor; [|exact Hd]. rewrite Hh2 by lia. rewrite Hnew, Hf. reflexivity.
      * constructor; [lia|]. eapply Forall_impl; [|exact Hb]. cbv beta. intros x Hx. lia.
    + destruct (IH p w Hw Hp Hdt Hl Ht Hs Hfs) as (rs & w1 & Hpp & Hko & Hself1 & Hd & Hb).
      exists rs, w1. split; [exact Hpp|]. split; [exact Hko|]. split; [exact Hself1|].
      split; [exact Hd|exact Hb].
Qed.

(** [NLPPipeline.process_directory] when the processor of the resolved
    type is already cached (from an earlier call for that type) never
    raises: the matches that are not regular files are skipped; each
    regular file gives one dict, in the order of the matches, that names
    the file, the [process_text] dict of its text with ["file"] added for
    a readable file and [{"file", "error"}] otherwise; exactly the dicts
    of the readable files are appended, in order, to the log. *)
Theorem pl_process_directory_cached (self t s : nat) (p : pipeline) (st : custom_stopwords)
    (matches : list string) (doc : option string) (gf : bool) (w : world) :
  wf w = true -> heap_get self (heap w) = Some (OPipeline p) ->
  lookup (doc_type_or doc (default_type p)) (processors p) = Some t ->
  heap_get t (heap w) = Some (OProcessor s) -> heap_get s (heap w) = Some (OStore st) ->
  exists rs w1,
    pl_process_directory self matches doc gf w = (inl rs, w1) /\
    heap_get self (heap w1) =
      Some (OPipeline (mkPipeline (default_type p) (processors p)
        (results p ++ map fst (filter (fun rm =>
           match fs_lookup (snd rm) w with Some (Readable _) => true | _ => false end)
           (combine rs (filter (fun m =>
              match fs_lookup m w with Some _ => true | None => false end) matches)))))) /\
    Forall2 (fun r m => heap_get r (heap w1) = Some (ODict
      (match fs_lookup m w with
       | Some (Readable text) =>
           dict_set "file" (VStr m)
             (text_result (doc_type_or doc (default_type p)) text st gf 10)
       | Some (Unreadable msg) => [("file", VStr m); ("error", VStr msg)]
       | None => []
       end))) rs
      (filter (fun m => match fs_lookup m w with Some _ => true | None => false end)
              matches).
Proof.
  intros Hw Hp Hl Ht Hs. unfold pl_process_directory.
  assert (E : get_pipeline self w = (inl p, w)) by (unfold get_pipeline; now rewrite Hp).
  rewrite (bind_ok _ _ _ _ _ E). cbv beta.
  destruct (pl_process_paths_cached self t s st (doc_type_or doc (default_type p)) gf w matches
              p w Hw Hp (doc_type_or_idem _ _) Hl Ht Hs (fun x => eq_refl))
    as (rs & w1 & Hpp & _ & Hself & Hd & _).
  exists rs, w1. split; [exact Hpp|]. split; [exact Hself|exact Hd].
Qed.

Lemma pl_process_directory_cached_witness :
  exists rs w1,
    pl_process_directory 2 ["notes.txt"; "locked.txt"; "nope"; "custom_stopwords.json"] None false demo_cached_world
      = (inl rs, w1) /\
    heap_get 2 (heap w1) =
      Some (OPipeline (mkPipeline "technical" [("technical", 1)]
        ([] ++ map fst (filter (fun rm =>
           match fs_lookup (snd rm) demo_cached_world with
           | Some (Readable _) => true | _ => false end)
           (combine rs (filter (fun m =>
              match fs_lookup m demo_cached_world with Some _ => true | None => false end)
              ["notes.txt"; "locked.txt"; "nope"; "custom_stopwords.json"])))))) /\
    Forall2 (fun r m => heap_get r (heap w1) = Some (ODict
      (match fs_lookup m demo_cached_world with
       | Some (Readable text) =>
           dict_set "file" (VStr m) (text_result "technical" text demo_store false 10)
       | Some (Unreadable msg) => [("file", VStr m); ("error", VStr msg)]
       | None => []
       end))) rs
      (filter (fun m =>
         match fs_lookup m demo_cached_world with Some _ => true | None => false end)
         ["notes.txt"; "locked.txt"; "nope"; "custom_stopwords.json"]).
Proof.
  apply (pl_process_directory_cached 2 1 0 (mkPipeline "technical" [("technical", 1)] [])
           demo_store _ None false demo_cached_world); reflexivity.
Defined.

Lemma remove_custom_stopwords_heap (self s : nat) (st : custom_stopwords)
    (words : words_arg) (w : world) :
  heap_get self (heap w) = Some (OProcessor s) ->
  heap_get s (heap w) = Some (OStore st) ->
  heap (snd (remove_custom_stopwords self words w))
  = heap_set s (OStore (with_custom st
      (fold_left (fun acc word => set_discard (lower word) acc)
                 (arg_list words) (custom_stopwords_set st)))) (heap w).
Proof.
  intros H1 H2. unfold remove_custom_stopwords.
  assert (E1 : get_processor_obj self w = (inl s, w))
    by (unfold get_processor_obj; now rewrite H1).
  rewrite (bind_ok _ _ _ _ _ E1). cbv beta.
  rewrite (remove_unfold _ _ _ _ H2), save_heap. reflexivity.
Qed.

(** After [TextProcessor.remove_custom_stopwords(words)], whether or not
    the save succeeded, a later [process_file(path, remove_stopwords=True)]
    of the same processor keeps every word of [words] (lowercased) that is
    not a base stopword: if the text has it as a token, so does the
    result. *)
Theorem removed_words_kept (self s : nat) (st : custom_stopwords) (words : words_arg)
    (path : string) (fr : file_result) (w w2 : world) :
  heap_get self (heap w) = Some (OProcessor s) ->
  heap_get s (heap w) = Some (OStore st) ->
  tp_process_file self path true (snd (remove_custom_stopwords self words w)) = (inl fr, w2) ->
  forall x, In x (arg_list words) -> mem (lower x) (base_stopwords st) = false ->
  In (lower x) (findall (lower (fr_original_text fr))) -> In (lower x) (fr_tokens fr).
Proof.
  intros H1 H2 Htp x Hx Hb Hin.
  assert (Hne : self <> s) by congruence.
  set (c := fold_left (fun acc word => set_discard (lower word) acc)
                      (arg_list words) (custom_stopwords_set st)) in *.
  pose proof (remove_custom_stopwords_heap _ _ _ words _ H1 H2) as Hh. fold c in Hh.
  set (w1 := snd (remove_custom_stopwords self words w)) in *.
  assert (G1 : heap_get self (heap w1) = Some (OProcessor s))
    by (rewrite Hh, heap_get_set_other by exact Hne; exact H1).
  assert (G2 : heap_get s (heap w1) = Some (OStore (with_custom st c)))
    by (rewrite Hh; eapply heap_get_set_same; exact H2).
  rewrite (tp_process_file_eval _ _ _ _ _ _ G1 G2) in Htp.
  destruct (fs_lookup path w1) as [[text|m]|]; try discriminate.
  injection Htp as <- _. cbn [fr_tokens fr_original_text] in *. unfold preprocess.
  apply filter_In. split; [exact Hin|]. apply negb_true_iff.
  unfold is_stopword. rewrite lower_idem, get_all_mem. cbn [with_custom base_stopwords
    custom_stopwords_set]. rewrite Hb. unfold c. rewrite (mem_fold_discard lower).
  assert (He : existsb (fun y => String.eqb (lower y) (lower x)) (arg_list words) = true)
    by (apply existsb_exists; exists x; split; [exact Hx|apply String.eqb_refl]).
  now rewrite He.
Qed.

Lemma removed_words_kept_witness :
  tp_process_file 1 "notes.txt" true
      (snd (remove_custom_stopwords 1 (Words ["C"]) demo_world))
    = (inl (mkFileResult "notes.txt" "a a b b b c" ["b"; "b"; "b"; "c"] 4 2 true),
       snd (remove_custom_stopwords 1 (Words ["C"]) demo_world)) /\
  In (lower "C") ["b"; "b"; "b"; "c"].
Proof.
  assert (Htp : tp_process_file 1 "notes.txt" true
                  (snd (remove_custom_stopwords 1 (Words ["C"]) demo_world))
                = (inl (mkFileResult "notes.txt" "a a b b b c" ["b"; "b"; "b"; "c"] 4 2 true),
                   snd (remove_custom_stopwords 1 (Words ["C"]) demo_world)))
    by (vm_compute; reflexivity).
  split; [exact Htp|].
  exact (removed_words_kept 1 0 demo_store (Words ["C"]) "notes.txt" _ demo_world _
           eq_refl eq_refl Htp "C" (or_introl eq_refl) eq_refl
           ltac:(vm_compute; right; right; right; right; right; left; reflexivity)).
Defined.
